(** * Quick Survey: the survey runner (script.js) and the categories
    service (server.js), embedded as pure state-passing functions.

    Every event handler of the two programs becomes a function from the
    state before the event to the state after it.  JavaScript values are
    kept as the code has them: the answers object is a finite map keyed by
    question id, an answer is a string or a number, array indices are
    integers with the bounds tests written out, and a handler that throws
    stops at the statement that throws. *)

From stdpp Require Import gmap strings list pretty.
From Stdlib Require Import ZArith Ascii.

Local Open Scope Z_scope.

(** ** JavaScript and browser primitives used by both programs *)

Module JS.

(** [arr[i]] for a number [i]: [undefined] outside the array. *)
Definition index {A} (arr : list A) (i : Z) : option A :=
  if i <? 0 then None else arr !! Z.to_nat i.

Definition dquote : ascii := "034"%char.
Definition backslash : ascii := "092"%char.

Definition string_eqb (a b : string) : bool := bool_decide (a = b).

(** A string is a sequence of code units below 256 (Basic Latin and
    Latin-1); characters are compared through their codes. *)
Definition code (c : ascii) : N := N_of_ascii c.

Definition nbsp : ascii := "160"%char.

(** White space removed by [String.prototype.trim]: tab, line feed,
    vertical tab, form feed, carriage return, space and the no-break
    space (the white space and line terminators below 256). *)
Definition is_space (c : ascii) : bool :=
  let n := code c in
  ((9 <=? n) && (n <=? 13) || (n =? 32) || (n =? 160))%N.

Fixpoint trimStart (s : string) : string :=
  match s with
  | EmptyString => EmptyString
  | String c r => if is_space c then trimStart r else s
  end.

Definition is_empty (s : string) : bool :=
  match s with EmptyString => true | String _ _ => false end.

Fixpoint trimEnd (s : string) : string :=
  match s with
  | EmptyString => EmptyString
  | String c r =>
      let r' := trimEnd r in
      if is_space c && is_empty r' then EmptyString else String c r'
  end.

Definition trim (s : string) : string := trimEnd (trimStart s).

(** [String.prototype.toLowerCase]: the upper-case letters below 256
    are A to Z (65 to 90) and the Latin-1 capitals 192 to 222 without
    the multiplication sign 215; each has its lower case 32 above. *)
Definition lower_char (c : ascii) : ascii :=
  let n := code c in
  if ((65 <=? n) && (n <=? 90) ||
      (192 <=? n) && (n <=? 214) || (216 <=? n) && (n <=? 222))%N
  then ascii_of_N (n + 32) else c.

Fixpoint toLowerCase (s : string) : string :=
  match s with
  | EmptyString => EmptyString
  | String c r => String (lower_char c) (toLowerCase r)
  end.

End JS.

(** ** The survey runner: class SurveyApp of script.js *)

Module Survey.

(** The three values of [question.type] that [displayQuestion] switches on. *)
Inductive qtype := MultipleChoice | Rating | TextQ.

(** A question of survey-data.json.  [description], [labels] and
    [placeholder] only feed static text and are left out. *)
Record question := {
  q_id : Z;
  q_type : qtype;
  q_title : string;
  q_required : bool;
  q_options : list string;
  q_scale : Z;
}.

(** A value stored in [this.answers]: the option text or the textarea
    content (a string), or the rating clicked (a number). *)
Inductive answer := AStr (s : string) | ANum (n : Z).

(** [String(a)], the conversion applied by template literals and by
    assignments to [textContent] and [value]. *)
Definition to_string (a : answer) : string :=
  match a with AStr s => s | ANum n => pretty n end.

(** [!a]. *)
Definition falsy (a : answer) : bool :=
  match a with
  | AStr s => JS.is_empty s
  | ANum n => n =? 0
  end.

(** [a !== undefined && a !== ''] for the result of a property read. *)
Definition nonempty (a : option answer) : bool :=
  match a with
  | None => false
  | Some (AStr s) => negb (JS.is_empty s)
  | Some (ANum _) => true
  end.

(** The children of #options-container.  Each element carries what its
    listener closes over: the question it was created for and its own
    value. *)
Inductive element :=
| OptionEl (q : question) (option : string) (selected : bool)
| RatingEl (q : question) (i : Z) (selected : bool)
| TextInput (q : question) (value : string).

(** The [data-value] attribute, set through [dataset.value]. *)
Definition data_value (e : element) : option string :=
  match e with
  | OptionEl _ o _ => Some o
  | RatingEl _ i _ => Some (pretty i)
  | TextInput _ _ => None
  end.

Definition is_selected (e : element) : bool :=
  match e with
  | OptionEl _ _ b | RatingEl _ _ b => b
  | TextInput _ _ => false
  end.

(** [classList.remove('selected')] and [classList.add('selected')]. *)
Definition deselect (e : element) : element :=
  match e with
  | OptionEl q o _ => OptionEl q o false
  | RatingEl q i _ => RatingEl q i false
  | TextInput q v => TextInput q v
  end.

Definition select (e : element) : element :=
  match e with
  | OptionEl q o _ => OptionEl q o true
  | RatingEl q i _ => RatingEl q i true
  | TextInput q v => TextInput q v
  end.

(** [textInput.value = v]. *)
Definition set_value (v : string) (e : element) : element :=
  match e with
  | TextInput q _ => TextInput q v
  | _ => e
  end.

(** The question an element's listener closes over. *)
Definition owner (e : element) : question :=
  match e with
  | OptionEl q _ _ | RatingEl q _ _ | TextInput q _ => q
  end.

Inductive screen := WelcomeScreen | SurveyScreen | ResultsScreen.

(** What #survey-summary shows. *)
Inductive summary :=
| NoResponses
| SummaryItems (items : list (string * string)).

(** The fields of the SurveyApp object and the parts of the page its
    methods write. *)
Record SurveyApp := {
  surveyData : list question;
  fetches : nat;
  currentQuestionIndex : Z;
  answers : gmap Z answer;
  activeScreen : screen;
  optionsContainer : list element;
  prevDisabled : bool;
  nextDisabled : bool;
  nextText : string;
  surveySummary : summary;
}.

Definition set_index (i : Z) (st : SurveyApp) : SurveyApp :=
  {| surveyData := surveyData st; fetches := fetches st;
     currentQuestionIndex := i; answers := answers st;
     activeScreen := activeScreen st;
     optionsContainer := optionsContainer st;
     prevDisabled := prevDisabled st; nextDisabled := nextDisabled st;
     nextText := nextText st; surveySummary := surveySummary st |}.

Definition set_answers (a : gmap Z answer) (st : SurveyApp) : SurveyApp :=
  {| surveyData := surveyData st; fetches := fetches st;
     currentQuestionIndex := currentQuestionIndex st; answers := a;
     activeScreen := activeScreen st;
     optionsContainer := optionsContainer st;
     prevDisabled := prevDisabled st; nextDisabled := nextDisabled st;
     nextText := nextText st; surveySummary := surveySummary st |}.

Definition set_screen (s : screen) (st : SurveyApp) : SurveyApp :=
  {| surveyData := surveyData st; fetches := fetches st;
     currentQuestionIndex := currentQuestionIndex st;
     answers := answers st; activeScreen := s;
     optionsContainer := optionsContainer st;
     prevDisabled := prevDisabled st; nextDisabled := nextDisabled st;
     nextText := nextText st; surveySummary := surveySummary st |}.

Definition set_container (c : list element) (st : SurveyApp) : SurveyApp :=
  {| surveyData := surveyData st; fetches := fetches st;
     currentQuestionIndex := currentQuestionIndex st;
     answers := answers st; activeScreen := activeScreen st;
     optionsContainer := c;
     prevDisabled := prevDisabled st; nextDisabled := nextDisabled st;
     nextText := nextText st; surveySummary := surveySummary st |}.

Definition set_prev (b : bool) (st : SurveyApp) : SurveyApp :=
  {| surveyData := surveyData st; fetches := fetches st;
     currentQuestionIndex := currentQuestionIndex st;
     answers := answers st; activeScreen := activeScreen st;
     optionsContainer := optionsContainer st;
     prevDisabled := b; nextDisabled := nextDisabled st;
     nextText := nextText st; surveySummary := surveySummary st |}.

Definition set_next (b : bool) (label : string) (st : SurveyApp) : SurveyApp :=
  {| surveyData := surveyData st; fetches := fetches st;
     currentQuestionIndex := currentQuestionIndex st;
     answers := answers st; activeScreen := activeScreen st;
     optionsContainer := optionsContainer st;
     prevDisabled := prevDisabled st; nextDisabled := b;
     nextText := label; surveySummary := surveySummary st |}.

Definition set_summary (s : summary) (st : SurveyApp) : SurveyApp :=
  {| surveyData := surveyData st; fetches := fetches st;
     currentQuestionIndex := currentQuestionIndex st;
     answers := answers st; activeScreen := activeScreen st;
     optionsContainer := optionsContainer st;
     prevDisabled := prevDisabled st; nextDisabled := nextDisabled st;
     nextText := nextText st; surveySummary := s |}.

(** *** Element.querySelector on the selector built by
    [restorePreviousAnswer] *)

(** The selector text of
    [container.querySelector(`[data-value="${previousAnswer}"]`)]. *)
Definition data_value_selector (v : string) : string :=
  "[data-value=" +:+ String JS.dquote (v +:+ String JS.dquote "]").

(** CSS preprocessing turns carriage return and form feed into line feed,
    and a line feed inside a string yields a bad-string token. *)
Definition css_newline (c : ascii) : bool :=
  let n := JS.code c in ((n =? 10) || (n =? 12) || (n =? 13))%N.

Definition css_space (c : ascii) : bool :=
  let n := JS.code c in ((n =? 9) || (n =? 32))%N || css_newline c.

(** Reading a double-quoted CSS string token, the opening quote already
    consumed. *)
Inductive string_token :=
| Closed (value rest : string)   (* the closing quote was found *)
| BadString                      (* a newline inside the string *)
| Escaped                        (* a backslash escape or U+0000 *)
| Unterminated.                  (* end of input inside the string *)

Fixpoint consume_string (s : string) : string_token :=
  match s with
  | EmptyString => Unterminated
  | String c r =>
      if Ascii.eqb c JS.dquote then Closed EmptyString r
      else if Ascii.eqb c JS.backslash then Escaped
      else if (JS.code c =? 0)%N then Escaped
      else if css_newline c then BadString
      else match consume_string r with
           | Closed v rest => Closed (String c v) rest
           | t => t
           end
  end.

Fixpoint skip_spaces (s : string) : string :=
  match s with
  | EmptyString => EmptyString
  | String c r => if css_space c then skip_spaces r else s
  end.

(** How the selector engine reads the text. *)
Inductive selector :=
| AttrEquals (v : string)   (* exactly [data-value="v"] *)
| SyntaxError               (* not a selector: querySelector throws *)
| OtherSelector.            (* anything else; left to the browser *)

Fixpoint strip_prefix (p s : string) : option string :=
  match p, s with
  | EmptyString, _ => Some s
  | String a p', String b s' =>
      if Ascii.eqb a b then strip_prefix p' s' else None
  | String _ _, EmptyString => None
  end.

(** After the value of an attribute selector only white space, a
    comment, the modifier [i] or [s] (possibly escaped), or the closing
    bracket may follow.  [after_value rest] tells whether [rest] starts
    in one of these ways; if it does not, the text is not a selector. *)
Definition after_value (rest : string) : bool :=
  match skip_spaces rest with
  | EmptyString => true
  | String c _ =>
      let n := JS.code c in
      ((n =? 93) || (n =? 47) || (n =? 92) ||
       (n =? 105) || (n =? 73) || (n =? 115) || (n =? 83))%N
  end.

Definition parse_selector (text : string) : selector :=
  match strip_prefix ("[data-value=" +:+ String JS.dquote EmptyString) text with
  | None => OtherSelector
  | Some body =>
      match consume_string body with
      | Closed v rest =>
          if JS.string_eqb rest "]" then AttrEquals v
          else if after_value rest then OtherSelector
          else SyntaxError
      | BadString => SyntaxError
      | Escaped | Unterminated => OtherSelector
      end
  end.

(** Index of the first element, in document order, whose [data-value]
    is [v]. *)
Fixpoint first_with_value (v : string) (els : list element) : option nat :=
  match els with
  | [] => None
  | e :: r =>
      if bool_decide (data_value e = Some v) then Some 0%nat
      else S <$> first_with_value v r
  end.

(** Index of the first textarea.text-input. *)
Fixpoint first_text_input (els : list element) : option nat :=
  match els with
  | [] => None
  | TextInput _ _ :: _ => Some 0%nat
  | _ :: r => S <$> first_text_input r
  end.

(** The page's events: clicks on the four buttons, a click on the
    [k]-th control of the container, and typing into its textarea. *)
Inductive event :=
| ClickStart
| ClickPrev
| ClickNext
| ClickRestart
| ClickControl (k : nat)
| InputText (k : nat) (value : string).

(** *** The methods of SurveyApp *)

Section Runner.

(** What the browser's selector engine answers, inside the container,
    for a selector text that is not a single attribute test: the index
    of the element found, or [None] for null or an exception. *)
Variable engine : string -> list element -> option nat.

Definition querySelector (text : string) (els : list element) : option nat :=
  match parse_selector text with
  | AttrEquals v => first_with_value v els
  | SyntaxError => None
  | OtherSelector => engine text els
  end.

(** The state once [init] has loaded the survey and shown the welcome
    screen.  The button states, label and summary come from the page's
    markup. *)
Definition initial (qs : list question)
    (pd nd : bool) (label : string) (sm : summary) : SurveyApp :=
  {| surveyData := qs; fetches := 1;
     currentQuestionIndex := 0; answers := ∅;
     activeScreen := WelcomeScreen; optionsContainer := [];
     prevDisabled := pd; nextDisabled := nd;
     nextText := label; surveySummary := sm |}.

Definition showWelcomeScreen := set_screen WelcomeScreen.
Definition showSurveyScreen := set_screen SurveyScreen.

(** The controls created for a question; [seqZ 1 n] is the run of the
    loop [for (let i = 1; i <= question.scale; i++)]. *)
Definition createMultipleChoiceOptions (q : question) : list element :=
  (λ o, OptionEl q o false) <$> q_options q.

Definition createRatingOptions (q : question) : list element :=
  (λ i, RatingEl q i false) <$> seqZ 1 (q_scale q).

Definition createTextInput (q : question) : list element :=
  [TextInput q EmptyString].

Definition createOptions (q : question) : list element :=
  match q_type q with
  | MultipleChoice => createMultipleChoiceOptions q
  | Rating => createRatingOptions q
  | TextQ => createTextInput q
  end.

(** [updateNavigationButtons]: the previous button is written first;
    with no current question the read of [currentQuestion.id] throws
    and the rest is skipped. *)
Definition updateNavigationButtons (st : SurveyApp) : SurveyApp :=
  let st1 := set_prev (currentQuestionIndex st =? 0) st in
  match JS.index (surveyData st) (currentQuestionIndex st) with
  | None => st1
  | Some currentQuestion =>
      let hasAnswer := nonempty (answers st !! q_id currentQuestion) in
      let isRequired := q_required currentQuestion in
      set_next (isRequired && negb hasAnswer)
        (if currentQuestionIndex st =? Z.of_nat (length (surveyData st)) - 1
         then "Complete Survey" else "Next")
        st1
  end.

Definition restorePreviousAnswer (q : question) (st : SurveyApp) : SurveyApp :=
  match answers st !! q_id q with
  | None => st
  | Some previousAnswer =>
      if falsy previousAnswer then st
      else
        let container := optionsContainer st in
        match q_type q with
        | MultipleChoice | Rating =>
            match querySelector
                    (data_value_selector (to_string previousAnswer))
                    container with
            | Some k => set_container (alter select k container) st
            | None => st
            end
        | TextQ =>
            match first_text_input container with
            | Some k =>
                set_container
                  (alter (set_value (to_string previousAnswer)) k
                         container) st
            | None => st
            end
        end
  end.

(** [displayQuestion]: with no question at the current index the read
    of [question.title] throws before anything modelled is written. *)
Definition displayQuestion (st : SurveyApp) : SurveyApp :=
  match JS.index (surveyData st) (currentQuestionIndex st) with
  | None => st
  | Some question =>
      restorePreviousAnswer question
        (updateNavigationButtons
           (set_container (createOptions question) st))
  end.

Definition startSurvey (st : SurveyApp) : SurveyApp :=
  displayQuestion
    (showSurveyScreen (set_answers ∅ (set_index 0 st))).

(** [displayResults]: one item per question whose answer is neither
    undefined nor the empty string, appended in the order of
    [forEach]; the message replaces an empty container. *)
Definition summary_answer (q : question) (a : answer) : string :=
  match q_type q with
  | Rating => to_string a +:+ " out of " +:+ pretty (q_scale q)
  | _ => to_string a
  end.

Definition append_item (ans : gmap Z answer)
    (children : list (string * string)) (q : question)
    : list (string * string) :=
  match ans !! q_id q with
  | Some a =>
      if nonempty (Some a)
      then children ++ [(q_title q, summary_answer q a)]
      else children
  | None => children
  end.

Definition summary_of (qs : list question) (ans : gmap Z answer) : summary :=
  let children := foldl (append_item ans) [] qs in
  if (length children =? 0)%nat then NoResponses
  else SummaryItems children.

Definition displayResults (st : SurveyApp) : SurveyApp :=
  set_summary (summary_of (surveyData st) (answers st)) st.

Definition showResultsScreen (st : SurveyApp) : SurveyApp :=
  displayResults (set_screen ResultsScreen st).

Definition completeSurvey := showResultsScreen.

Definition previousQuestion (st : SurveyApp) : SurveyApp :=
  if 0 <? currentQuestionIndex st
  then displayQuestion (set_index (currentQuestionIndex st - 1) st)
  else st.

Definition nextQuestion (st : SurveyApp) : SurveyApp :=
  if currentQuestionIndex st <? Z.of_nat (length (surveyData st)) - 1
  then displayQuestion (set_index (currentQuestionIndex st + 1) st)
  else completeSurvey st.

Definition restartSurvey (st : SurveyApp) : SurveyApp :=
  showWelcomeScreen (set_answers ∅ (set_index 0 st)).

(** The click listener of the [k]-th option or rating control and the
    input listener of a textarea. *)
Definition clickControl (k : nat) (st : SurveyApp) : SurveyApp :=
  match optionsContainer st !! k with
  | Some (OptionEl q o _) =>
      updateNavigationButtons
        (set_answers (<[q_id q := AStr o]> (answers st))
           (set_container
              (alter select k (deselect <$> optionsContainer st)) st))
  | Some (RatingEl q i _) =>
      updateNavigationButtons
        (set_answers (<[q_id q := ANum i]> (answers st))
           (set_container
              (alter select k (deselect <$> optionsContainer st)) st))
  | _ => st
  end.

Definition inputText (k : nat) (value : string) (st : SurveyApp) : SurveyApp :=
  match optionsContainer st !! k with
  | Some (TextInput q _) =>
      updateNavigationButtons
        (set_answers (<[q_id q := AStr value]> (answers st))
           (set_container
              (<[k := TextInput q value]> (optionsContainer st)) st))
  | _ => st
  end.

(** *** The page's events *)

(** A click on a disabled button dispatches no event, so the listeners
    of #prev-btn and #next-btn run only while the button is enabled.
    [nextQuestion] itself tests nothing but the index: the forward gate
    is the [disabled] property written by [updateNavigationButtons]. *)
Definition goPrevious (st : SurveyApp) : SurveyApp :=
  if prevDisabled st then st else previousQuestion st.

Definition goNext (st : SurveyApp) : SurveyApp :=
  if nextDisabled st then st else nextQuestion st.

Definition handle (e : event) (st : SurveyApp) : SurveyApp :=
  match e with
  | ClickStart => startSurvey st
  | ClickPrev => goPrevious st
  | ClickNext => goNext st
  | ClickRestart => restartSurvey st
  | ClickControl k => clickControl k st
  | InputText k v => inputText k v st
  end.

Definition run (es : list event) (st : SurveyApp) : SurveyApp :=
  foldl (λ s e, handle e s) st es.

(** The states the page can be in: any listener may run next, whatever
    screen is shown. *)
Inductive reachable (qs : list question) : SurveyApp -> Prop :=
| reachable_initial pd nd label sm :
    reachable qs (initial qs pd nd label sm)
| reachable_handle st e :
    reachable qs st -> reachable qs (handle e st).

End Runner.

(** *** Notions used in the statements *)

(** The index stays inside the question list (and is 0 for an empty
    list). *)
Definition index_ok (st : SurveyApp) : Prop :=
  0 ≤ currentQuestionIndex st ∧
  (currentQuestionIndex st < Z.of_nat (length (surveyData st)) ∨
   currentQuestionIndex st = 0).

(** The forward gate of [updateNavigationButtons] for question [q]. *)
Definition gate (ans : gmap Z answer) (q : question) : bool :=
  q_required q && negb (nonempty (ans !! q_id q)).

(** While the survey screen is shown, the next button's [disabled]
    property is the gate of the current question. *)
Definition nav_synced (st : SurveyApp) : Prop :=
  activeScreen st = SurveyScreen ->
  ∀ q, JS.index (surveyData st) (currentQuestionIndex st) = Some q ->
       nextDisabled st = gate (answers st) q.

(** The question and value an answer event's listener writes, when the
    control it targets exists. *)
Definition written (e : event) (st : SurveyApp) : option (question * answer) :=
  match e with
  | ClickControl k =>
      match optionsContainer st !! k with
      | Some (OptionEl q o _) => Some (q, AStr o)
      | Some (RatingEl q i _) => Some (q, ANum i)
      | _ => None
      end
  | InputText k v =>
      match optionsContainer st !! k with
      | Some (TextInput q _) => Some (q, AStr v)
      | _ => None
      end
  | _ => None
  end.

(** [st'] is [st] moved one step forward: the next question, or the
    results screen after the last one. *)
Definition advanced (st st' : SurveyApp) : Prop :=
  let last := Z.of_nat (length (surveyData st)) - 1 in
  (currentQuestionIndex st < last ∧
   activeScreen st' = SurveyScreen ∧
   currentQuestionIndex st' = currentQuestionIndex st + 1) ∨
  (currentQuestionIndex st = last ∧
   activeScreen st' = ResultsScreen ∧
   currentQuestionIndex st' = currentQuestionIndex st).

(** An answer that fits its question: a rating is a number from 1 to
    the scale, a choice is one of the options. *)
Definition valid_answer (q : question) (a : answer) : Prop :=
  (q_type q = Rating -> ∃ n, a = ANum n ∧ 1 ≤ n ≤ q_scale q) ∧
  (q_type q = MultipleChoice -> ∃ o, a = AStr o ∧ o ∈ q_options q).

(** The value a control's listener writes, if it has one. *)
Definition control_value (e : element) : option answer :=
  match e with
  | OptionEl _ o _ => Some (AStr o)
  | RatingEl _ i _ => Some (ANum i)
  | TextInput _ _ => None
  end.

(** A control created by the input surface of its own question: it
    belongs to a question of the survey, has that question's kind, and
    writes a value that fits it. *)
Definition element_ok (qs : list question) (e : element) : Prop :=
  owner e ∈ qs ∧
  match e with
  | OptionEl q o _ => q_type q = MultipleChoice ∧ o ∈ q_options q
  | RatingEl q i _ => q_type q = Rating ∧ 1 ≤ i ≤ q_scale q
  | TextInput q _ => q_type q = TextQ
  end.

Definition answers_ok (qs : list question) (st : SurveyApp) : Prop :=
  Forall (element_ok qs) (optionsContainer st) ∧
  ∀ q a, q ∈ qs -> answers st !! q_id q = Some a -> valid_answer q a.

(** Text that a CSS string token takes as it is: no quotation mark,
    backslash, NUL or newline. *)
Definition plain_char (c : ascii) : bool :=
  negb (Ascii.eqb c JS.dquote) && negb (Ascii.eqb c JS.backslash) &&
  negb (JS.code c =? 0)%N && negb (css_newline c).

Fixpoint plain (s : string) : bool :=
  match s with
  | EmptyString => true
  | String c r => plain_char c && plain r
  end.

(** The input surface of [q] shows the answer [a]: the textarea holds
    it, or exactly one control is selected and it is the one that writes
    [a]. *)
Definition restored (q : question) (a : answer) (els : list element) : Prop :=
  match q_type q with
  | TextQ => els = [TextInput q (to_string a)]
  | _ =>
      ∃ k e, els !! k = Some e ∧ is_selected e = true ∧
             control_value e = Some a ∧
             ∀ j e', els !! j = Some e' -> is_selected e' = true -> j = k
  end.

(** *** The results aggregator as the specification words it *)

Module Spec.

(** A rating renders as its value, then "out of", then the scale; any
    other answer renders as its raw string. *)
Definition formatted (q : question) (a : answer) : string :=
  match q_type q, a with
  | Rating, _ => to_string a +:+ " out of " +:+ pretty (q_scale q)
  | _, AStr s => s
  | _, ANum n => pretty n
  end.

(** The pair for one question; none when its answer is absent or the
    empty string. *)
Definition pair_of (ans : gmap Z answer) (q : question)
    : option (string * string) :=
  match ans !! q_id q with
  | None => None
  | Some (AStr EmptyString) => None
  | Some a => Some (q_title q, formatted q a)
  end.

(** The pairs of the answered questions, in question order. *)
Definition pairs (qs : list question) (ans : gmap Z answer)
    : list (string * string) :=
  omap (pair_of ans) qs.

(** The empty result is signalled as such. *)
Definition aggregate (qs : list question) (ans : gmap Z answer) : summary :=
  match pairs qs ans with
  | [] => NoResponses
  | items => SummaryItems items
  end.

End Spec.

(** *** A sample survey: one required choice, a rating, a text *)

Definition q1 : question :=
  {| q_id := 1; q_type := MultipleChoice; q_title := "Pick one";
     q_required := true; q_options := ["A"; "B"]; q_scale := 0 |}.
Definition q2 : question :=
  {| q_id := 2; q_type := Rating; q_title := "Rate it";
     q_required := false; q_options := []; q_scale := 5 |}.
Definition q3 : question :=
  {| q_id := 3; q_type := TextQ; q_title := "Comments";
     q_required := false; q_options := []; q_scale := 0 |}.
Definition sample : list question := [q1; q2; q3].

(** A selector engine that finds nothing outside the modelled fragment. *)
Definition no_engine (text : string) (els : list element) : option nat := None.

Definition sample_initial : SurveyApp :=
  initial sample false false "Next" (SummaryItems []).

(** *** A survey that uses one id for two questions *)

Definition clash_survey : list question :=
  [ {| q_id := 1; q_type := Rating; q_title := "Rate it";
       q_required := false; q_options := []; q_scale := 5 |};
    {| q_id := 1; q_type := TextQ; q_title := "Comments";
       q_required := false; q_options := []; q_scale := 0 |} ].

(** *** A survey with a quotation mark inside an option *)

Definition quoted_option : string :=
  "Say " +:+ String JS.dquote ("hi" +:+ String JS.dquote EmptyString).
Definition quoted_question : question :=
  {| q_id := 1; q_type := MultipleChoice; q_title := "Greeting";
     q_required := true; q_options := [quoted_option; "No"];
     q_scale := 0 |}.
Definition quoted_survey : list question := [quoted_question; q3].

Definition sample_start : SurveyApp :=
  handle no_engine ClickStart sample_initial.

(** The first question answered, the second rated 4. *)
Definition sample_rated : SurveyApp :=
  run no_engine
    [ClickStart; ClickControl 0; ClickNext; ClickControl 3] sample_initial.

(** The sample survey completed without the optional answers. *)
Definition sample_results : SurveyApp :=
  run no_engine
    [ClickStart; ClickControl 1; ClickNext; ClickNext; ClickNext]
    sample_initial.

(** *** Further notions: what the survey screen shows *)

(** While the survey screen shows a question, the previous button is
    disabled exactly at index 0 and the next button's label marks the
    last question. *)
Definition buttons_synced (st : SurveyApp) : Prop :=
  activeScreen st = SurveyScreen ->
  ∀ q, JS.index (surveyData st) (currentQuestionIndex st) = Some q ->
       prevDisabled st = (currentQuestionIndex st =? 0) ∧
       nextText st =
         if currentQuestionIndex st =? Z.of_nat (length (surveyData st)) - 1
         then "Complete Survey" else "Next".

(** A control as it is created: not selected, the textarea empty. *)
Definition unmarked (e : element) : element :=
  set_value EmptyString (deselect e).

(** While the survey screen shows a question, the container holds the
    controls created for that question. *)
Definition shows_question (st : SurveyApp) : Prop :=
  activeScreen st = SurveyScreen ->
  ∀ q, JS.index (surveyData st) (currentQuestionIndex st) = Some q ->
       unmarked <$> optionsContainer st = createOptions q.

Definition at_most_one_selected (els : list element) : Prop :=
  ∀ i j ei ej,
    els !! i = Some ei -> els !! j = Some ej ->
    is_selected ei = true -> is_selected ej = true -> i = j.

(** Every control belongs to a question of the survey and every key of
    the answers object is the id of one. *)
Definition keys_ok (qs : list question) (st : SurveyApp) : Prop :=
  Forall (λ e, owner e ∈ qs) (optionsContainer st) ∧
  ∀ k a, answers st !! k = Some a -> ∃ q, q ∈ qs ∧ q_id q = k.

(** The sample survey with the first question answered "A", shown again
    on the first question after a look at the second. *)
Definition sample_answered : SurveyApp :=
  run no_engine [ClickStart; ClickControl 0] sample_initial.

(** The sample survey on its second question. *)
Definition sample_second : SurveyApp :=
  run no_engine [ClickStart; ClickControl 0; ClickNext] sample_initial.

(** The sample survey on its text question. *)
Definition sample_third : SurveyApp :=
  run no_engine [ClickStart; ClickControl 0; ClickNext; ClickNext]
    sample_initial.

End Survey.

(** ** The categories service: the route handlers of server.js *)

Module Categories.

Record category := {
  c_id : Z;
  name : string;
  description : string;
  color : string;
  createdAt : string;
  updatedAt : string;
}.

(** The [name] property of a parsed JSON body: missing, a string, or a
    value of another type. *)
Inductive field := Absent | Str (s : string) | NotString.

(** [req.body].  [description] and [color] are strings when present. *)
Record body := {
  b_name : field;
  b_description : option string;
  b_color : option string;
}.

(** The module's variables [categories] and [nextCategoryId], and the
    number of calls of [saveCategories], which copies them to the file. *)
Record server := {
  categories : list category;
  nextCategoryId : Z;
  saves : nat;
}.

Inductive payload :=
| Failure (error : string)
| One (data : category)
| Changed (data : category) (message : string)
| Many (data : list category) (count : nat).

Record response := { status : Z; payload_of : payload }.

(** [c.id === id] for the result of [parseInt]; [None] is NaN. *)
Definition has_id (id : option Z) (c : category) : Prop :=
  id = Some (c_id c).

#[global] Instance has_id_dec id c : Decision (has_id id c).
Proof. unfold has_id. apply _. Defined.

(** [c.name.toLowerCase() === name.toLowerCase()]. *)
Definition same_name (n : string) (c : category) : Prop :=
  JS.toLowerCase (name c) = JS.toLowerCase n.

#[global] Instance same_name_dec n c : Decision (same_name n c).
Proof. unfold same_name. apply _. Defined.

(** [Array.prototype.find]. *)
Definition find (P : category -> Prop) `{∀ c, Decision (P c)}
    (l : list category) : option category :=
  snd <$> list_find P l.

(** [x || d] for an optional string: the empty string is falsy too. *)
Definition or_default (x : option string) (d : string) : string :=
  match x with
  | Some s => if JS.is_empty s then d else s
  | None => d
  end.

Definition not_found (s : server) : server * response :=
  (s, {| status := 404; payload_of := Failure "Category not found" |}).

Definition bad_request (s : server) (msg : string) : server * response :=
  (s, {| status := 400; payload_of := Failure msg |}).

Definition saveCategories (s : server) : server :=
  {| categories := categories s; nextCategoryId := nextCategoryId s;
     saves := S (saves s) |}.

(** GET /api/categories *)
Definition get_all (s : server) : server * response :=
  (s, {| status := 200;
         payload_of := Many (categories s) (length (categories s)) |}).

(** GET /api/categories/:id *)
Definition get_one (id : option Z) (s : server) : server * response :=
  match find (has_id id) (categories s) with
  | None => not_found s
  | Some c => (s, {| status := 200; payload_of := One c |})
  end.

(** POST /api/categories; [t1] and [t2] are the two readings of the
    clock. *)
Definition post (t1 t2 : string) (b : body) (s : server) : server * response :=
  match b_name b with
  | Str n =>
      if JS.is_empty n || JS.is_empty (JS.trim n)
      then bad_request s "Category name is required"
      else
        match find (same_name n) (categories s) with
        | Some _ => bad_request s "Category with this name already exists"
        | None =>
            let newCategory :=
              {| c_id := nextCategoryId s;
                 name := JS.trim n;
                 description := or_default (b_description b) EmptyString;
                 color := or_default (b_color b) "#667eea";
                 createdAt := t1;
                 updatedAt := t2 |} in
            (saveCategories
               {| categories := categories s ++ [newCategory];
                  nextCategoryId := nextCategoryId s + 1;
                  saves := saves s |},
             {| status := 201;
                payload_of := Changed newCategory
                                "Category created successfully" |})
        end
  | Absent | NotString => bad_request s "Category name is required"
  end.

(** The assignments of PUT to the stored object. *)
Definition update (t : string) (b : body) (c : category) : category :=
  {| c_id := c_id c;
     name := match b_name b with Str n => JS.trim n | _ => name c end;
     description := default (description c) (b_description b);
     color := default (color c) (b_color b);
     createdAt := createdAt c;
     updatedAt := t |}.

(** [c.id !== id && c.name.toLowerCase() === name.toLowerCase()]. *)
Definition other_same_name (id : option Z) (n : string) (c : category) : Prop :=
  ¬ has_id id c ∧ same_name n c.

#[global] Instance other_same_name_dec id n c :
  Decision (other_same_name id n c).
Proof. unfold other_same_name. apply _. Defined.

(** The validation block of PUT: the error message, if any. *)
Definition put_validation (id : option Z) (b : body) (s : server)
    : option string :=
  match b_name b with
  | Absent => None
  | NotString => Some "Category name must be a non-empty string"
  | Str n =>
      if JS.is_empty (JS.trim n)
      then Some "Category name must be a non-empty string"
      else
        match find (other_same_name id n) (categories s) with
        | Some _ => Some "Category with this name already exists"
        | None => None
        end
  end.

(** PUT /api/categories/:id.  [list_find] gives the index that
    [findIndex] returns together with [categories[categoryIndex]]. *)
Definition put (t : string) (id : option Z) (b : body) (s : server)
    : server * response :=
  match list_find (has_id id) (categories s) with
  | None => not_found s
  | Some (categoryIndex, category) =>
      match put_validation id b s with
      | Some msg => bad_request s msg
      | None =>
          let category' := update t b category in
          (saveCategories
             {| categories := <[categoryIndex := category']> (categories s);
                nextCategoryId := nextCategoryId s;
                saves := saves s |},
           {| status := 200;
              payload_of := Changed category'
                              "Category updated successfully" |})
      end
  end.

(** DELETE /api/categories/:id; [splice(categoryIndex, 1)] removes the
    element found. *)
Definition delete_one (id : option Z) (s : server) : server * response :=
  match list_find (has_id id) (categories s) with
  | None => not_found s
  | Some (categoryIndex, deletedCategory) =>
      (saveCategories
         {| categories := delete categoryIndex (categories s);
            nextCategoryId := nextCategoryId s;
            saves := saves s |},
       {| status := 200;
          payload_of := Changed deletedCategory
                          "Category deleted successfully" |})
  end.

Inductive request :=
| GetAll
| GetOne (id : option Z)
| Post (t1 t2 : string) (b : body)
| Put (t : string) (id : option Z) (b : body)
| Delete (id : option Z).

Definition serve (r : request) (s : server) : server * response :=
  match r with
  | GetAll => get_all s
  | GetOne id => get_one id s
  | Post t1 t2 b => post t1 t2 b s
  | Put t id b => put t id b s
  | Delete id => delete_one id s
  end.

(** The server started without a data file. *)
Definition empty_server : server :=
  {| categories := []; nextCategoryId := 1; saves := 0 |}.

(** The states of the server after any sequence of requests. *)
Inductive served : server -> Prop :=
| served_none : served empty_server
| served_request s r : served s -> served (serve r s).1.

(** *** Notions used in the statements *)

(** Names pairwise distinct when compared without case. *)
Definition names_distinct (l : list category) : Prop :=
  NoDup (JS.toLowerCase ∘ name <$> l).

(** A string made of white space only. *)
Fixpoint blank (s : string) : bool :=
  match s with
  | EmptyString => true
  | String c r => JS.is_space c && blank r
  end.

(** Every stored name has a character that is not white space. *)
Definition stored_ok (s : server) : Prop :=
  Forall (λ c, blank (name c) = false) (categories s).

(** *** Sample requests *)

Definition named (n : string) : body :=
  {| b_name := Str n; b_description := None; b_color := None |}.

Definition sample_time : string := "2025-10-24T10:00:00.000Z".

(** The server after POST with "Ops" and POST with "Ops" followed by a
    space. *)
Definition after_one_post : server :=
  (serve (Post sample_time sample_time (named "Ops")) empty_server).1.

Definition after_two_posts : server :=
  (serve (Post sample_time sample_time (named "Ops ")) after_one_post).1.

Definition ops : category :=
  {| c_id := 1; name := "Ops"; description := EmptyString;
     color := "#667eea";
     createdAt := sample_time; updatedAt := sample_time |}.

(** The names "Été" and "été": E acute is code 201, e acute code 233. *)
Definition ete_upper : string :=
  String "201"%char (String "t"%char (String "233"%char EmptyString)).
Definition ete_lower : string :=
  String "233"%char (String "t"%char (String "233"%char EmptyString)).

(** No-break space, space, "Ops", space, no-break space. *)
Definition padded_ops : string :=
  String JS.nbsp (" Ops " +:+ String JS.nbsp EmptyString).

(** The server after POST with "Été" and POST with "Dev". *)
Definition after_ete_dev : server :=
  (serve (Post sample_time sample_time (named "Dev"))
     (serve (Post sample_time sample_time (named ete_upper))
        empty_server).1).1.

Definition ete : category :=
  {| c_id := 1; name := ete_upper; description := EmptyString;
     color := "#667eea";
     createdAt := sample_time; updatedAt := sample_time |}.

(** The same server after a further POST with the padded "Ops". *)
Definition after_padded_post : server :=
  (serve (Post sample_time sample_time (named padded_ops)) after_ete_dev).1.

Definition ops_third : category :=
  {| c_id := 3; name := "Ops"; description := EmptyString;
     color := "#667eea";
     createdAt := sample_time; updatedAt := sample_time |}.

(** *** Further notions: ids, the data file, trimmed names *)

(** Ids are pairwise distinct, at least 1 and below the counter. *)
Definition ids_ok (s : server) : Prop :=
  NoDup (c_id <$> categories s) ∧
  Forall (λ c, 1 ≤ c_id c < nextCategoryId s) (categories s) ∧
  1 ≤ nextCategoryId s.

(** What the server finds at CATEGORIES_FILE when it starts: no file, a
    file whose reading or parsing throws, or a parsed object whose
    [categories] and [nextId] properties may each be missing. *)
Inductive file :=
| NoFile
| Unreadable
| Parsed (cats : option (list category)) (next : option Z).

(** [loadCategories], run once on the module's initial values
    ([categories = []], [nextCategoryId = 1]). *)
Definition loadCategories (f : file) : server :=
  match f with
  | NoFile => empty_server
  | Unreadable => empty_server
  | Parsed cats next =>
      {| categories := default [] cats;
         nextCategoryId :=
           match next with
           | Some n => if n =? 0 then 1 else n
           | None => 1
           end;
         saves := 0 |}
  end.

(** The object that [saveCategories] hands to [JSON.stringify], as
    [JSON.parse] gives it back. *)
Definition file_written (s : server) : file :=
  Parsed (Some (categories s)) (Some (nextCategoryId s)).

(** A request whose name, if it has one, has no white space at either
    end. *)
Definition trimmed (r : request) : Prop :=
  match r with
  | Post _ _ b | Put _ _ b =>
      match b_name b with Str n => JS.trim n = n | _ => True end
  | _ => True
  end.

(** The states of the server after requests with trimmed names only. *)
Inductive served_trimmed : server -> Prop :=
| served_trimmed_none : served_trimmed empty_server
| served_trimmed_request s r :
    served_trimmed s -> trimmed r -> served_trimmed (serve r s).1.

(** Is the request one of the three that write? *)
Definition writes (r : request) : bool :=
  match r with
  | GetAll | GetOne _ => false
  | Post _ _ _ | Put _ _ _ | Delete _ => true
  end.

End Categories.

(** ** The categories page: class CategoryManager of categories.js *)

Module Client.
Import Categories.

(** The values of #category-name, #category-description and
    #category-color. *)
Record form := {
  nameField : string;
  descriptionField : string;
  colorField : string;
}.

(** [this.categories] (the copy of the last list received),
    [this.editingId] and the form. *)
Record CategoryManager := {
  known : list category;
  editingId : option Z;
  fields : form;
}.

(** The request that [handleSubmit] sends: [createCategory] posts the
    data, [updateCategory] puts it at the id being edited. *)
Inductive submission :=
| Create (b : body)
| Update (id : Z) (b : body).

(** [handleSubmit]: name and description are trimmed, an empty name
    stops with a notification ([None]), and a truthy [editingId] selects
    the update. *)
Definition handleSubmit (m : CategoryManager) : option submission :=
  let name := JS.trim (nameField (fields m)) in
  let description := JS.trim (descriptionField (fields m)) in
  let color := colorField (fields m) in
  if JS.is_empty name then None
  else
    let categoryData :=
      {| b_name := Str name; b_description := Some description;
         b_color := Some color |} in
    match editingId m with
    | Some id => if id =? 0 then Some (Create categoryData)
                 else Some (Update id categoryData)
    | None => Some (Create categoryData)
    end.

(** The request as the server receives it; [parseInt] of the decimal
    text of [id] in the URL is [id].  [t1] and [t2] are the server's
    clock readings. *)
Definition request_of (t1 t2 : string) (sub : submission) : request :=
  match sub with
  | Create b => Post t1 t2 b
  | Update id b => Put t1 (Some id) b
  end.

(** [editCategory(id)]: nothing for an id the page does not know;
    otherwise the form is filled from the category and [editingId] set.
    Each field is taken to hold the value assigned to it. *)
Definition editCategory (id : Z) (m : CategoryManager) : CategoryManager :=
  match find (has_id (Some id)) (known m) with
  | None => m
  | Some category =>
      {| known := known m;
         editingId := Some id;
         fields := {| nameField := name category;
                      descriptionField := description category;
                      colorField := color category |} |}
  end.

(** [loadCategories] after a successful GET: the list is copied. *)
Definition loaded (s : server) (m : CategoryManager) : CategoryManager :=
  {| known := categories s; editingId := editingId m; fields := fields m |}.

(** The server states that the page alone can produce: submissions of
    the form and deletions. *)
Inductive served_by_page : server -> Prop :=
| page_none : served_by_page empty_server
| page_submit s m sub t1 t2 :
    served_by_page s -> handleSubmit m = Some sub ->
    served_by_page (serve (request_of t1 t2 sub) s).1
| page_delete s id :
    served_by_page s -> served_by_page (serve (Delete id) s).1.

(** [escapeHtml]: the text is stored in a text node and read back
    through [innerHTML], which writes the ampersand, the no-break space
    (code 160) and the two angle brackets as entities. *)
Definition escape_char (c : ascii) : string :=
  let n := JS.code c in
  if (n =? 38)%N then "&amp;"
  else if (n =? 160)%N then "&nbsp;"
  else if (n =? 60)%N then "&lt;"
  else if (n =? 62)%N then "&gt;"
  else String c EmptyString.

Fixpoint escapeHtml (text : string) : string :=
  match text with
  | EmptyString => EmptyString
  | String c r => escape_char c +:+ escapeHtml r
  end.

(** Does the character occur in the text? *)
Fixpoint occurs (n : N) (s : string) : bool :=
  match s with
  | EmptyString => false
  | String c r => (JS.code c =? n)%N || occurs n r
  end.

(** A manager with an empty form, editing nothing. *)
Definition fresh : CategoryManager :=
  {| known := []; editingId := None;
     fields := {| nameField := EmptyString;
                  descriptionField := EmptyString;
                  colorField := "#667eea" |} |}.

(** The form filled with " Ops " and a description, nothing being
    edited. *)
Definition typed_ops : CategoryManager :=
  {| known := []; editingId := None;
     fields := {| nameField := " Ops ";
                  descriptionField := "Operations ";
                  colorField := "#10b981" |} |}.

(** The server after the page has submitted that form. *)
Definition page_after_ops : server :=
  (serve (request_of sample_time sample_time
            (Create {| b_name := Str "Ops";
                       b_description := Some "Operations";
                       b_color := Some "#10b981" |}))
         empty_server).1.

Definition page_ops : category :=
  {| c_id := 1; name := "Ops"; description := "Operations";
     color := "#10b981";
     createdAt := sample_time; updatedAt := sample_time |}.

(** The form filled with "Été" between a space and a no-break space. *)
Definition typed_ete : CategoryManager :=
  {| known := []; editingId := None;
     fields := {| nameField := " " +:+ ete_upper +:+ String JS.nbsp EmptyString;
                  descriptionField := EmptyString;
                  colorField := "#667eea" |} |}.

(** The form holding a lone no-break space as name. *)
Definition typed_nbsp : CategoryManager :=
  {| known := []; editingId := None;
     fields := {| nameField := String JS.nbsp EmptyString;
                  descriptionField := EmptyString;
                  colorField := "#667eea" |} |}.

Definition ete_data : body :=
  {| b_name := Str ete_upper; b_description := Some EmptyString;
     b_color := Some "#667eea" |}.

(** The server after the page has submitted both forms. *)
Definition page_after_two : server :=
  (serve (request_of sample_time sample_time (Create ete_data))
         page_after_ops).1.

Definition page_ete : category :=
  {| c_id := 2; name := ete_upper; description := EmptyString;
     color := "#667eea";
     createdAt := sample_time; updatedAt := sample_time |}.

End Client.

(** ** Properties of the survey runner *)

Module SurveyLaws.
Import Survey.

Section Laws.

Variable engine : string -> list element -> option nat.

Local Abbreviation restorePreviousAnswer := (Survey.restorePreviousAnswer engine).
Local Abbreviation displayQuestion := (Survey.displayQuestion engine).
Local Abbreviation startSurvey := (Survey.startSurvey engine).
Local Abbreviation previousQuestion := (Survey.previousQuestion engine).
Local Abbreviation nextQuestion := (Survey.nextQuestion engine).
Local Abbreviation goPrevious := (Survey.goPrevious engine).
Local Abbreviation goNext := (Survey.goNext engine).
Local Abbreviation handle := (Survey.handle engine).
Local Abbreviation reachable := (Survey.reachable engine).

(** *** What the methods leave alone *)

Lemma updateNavigationButtons_frame st :
  let st' := updateNavigationButtons st in
  surveyData st' = surveyData st ∧ fetches st' = fetches st ∧
  currentQuestionIndex st' = currentQuestionIndex st ∧
  answers st' = answers st ∧ activeScreen st' = activeScreen st ∧
  optionsContainer st' = optionsContainer st ∧
  surveySummary st' = surveySummary st.
Proof.
  unfold updateNavigationButtons.
  destruct (JS.index _ _); simpl; repeat split; reflexivity.
Qed.

Lemma updateNavigationButtons_prev st :
  prevDisabled (updateNavigationButtons st) = (currentQuestionIndex st =? 0).
Proof. unfold updateNavigationButtons. by destruct (JS.index _ _). Qed.

Lemma restorePreviousAnswer_frame q st :
  let st' := restorePreviousAnswer q st in
  surveyData st' = surveyData st ∧ fetches st' = fetches st ∧
  currentQuestionIndex st' = currentQuestionIndex st ∧
  answers st' = answers st ∧ activeScreen st' = activeScreen st ∧
  prevDisabled st' = prevDisabled st ∧
  nextDisabled st' = nextDisabled st ∧
  surveySummary st' = surveySummary st.
Proof.
  unfold Survey.restorePreviousAnswer.
  destruct (answers st !! q_id q) as [a|]; [|by repeat split].
  destruct (falsy a); [by repeat split|].
  destruct (q_type q).
  - destruct (querySelector _ _); by repeat split.
  - destruct (querySelector _ _); by repeat split.
  - destruct (first_text_input _); by repeat split.
Qed.

Lemma displayQuestion_frame st :
  let st' := displayQuestion st in
  surveyData st' = surveyData st ∧ fetches st' = fetches st ∧
  currentQuestionIndex st' = currentQuestionIndex st ∧
  answers st' = answers st ∧ activeScreen st' = activeScreen st ∧
  surveySummary st' = surveySummary st.
Proof.
  unfold Survey.displayQuestion.
  destruct (JS.index _ _) as [q|]; [|by repeat split].
  set (st1 := set_container (createOptions q) st).
  destruct (updateNavigationButtons_frame st1) as (A1&A2&A3&A4&A5&_&A7).
  destruct (restorePreviousAnswer_frame q (updateNavigationButtons st1))
    as (B1&B2&B3&B4&B5&_&_&B8).
  simpl. rewrite B1, B2, B3, B4, B5, B8, A1, A2, A3, A4, A5, A7.
  by repeat split.
Qed.

Lemma clickControl_frame k st :
  let st' := clickControl k st in
  surveyData st' = surveyData st ∧ fetches st' = fetches st ∧
  currentQuestionIndex st' = currentQuestionIndex st ∧
  activeScreen st' = activeScreen st ∧
  surveySummary st' = surveySummary st.
Proof.
  unfold clickControl.
  destruct (optionsContainer st !! k) as [[q o b|q i b|q v]|];
    try by repeat split.
  - match goal with |- context [updateNavigationButtons ?x] =>
      destruct (updateNavigationButtons_frame x) as (A1&A2&A3&_&A5&_&A7)
    end.
    simpl. rewrite A1, A2, A3, A5, A7. by repeat split.
  - match goal with |- context [updateNavigationButtons ?x] =>
      destruct (updateNavigationButtons_frame x) as (A1&A2&A3&_&A5&_&A7)
    end.
    simpl. rewrite A1, A2, A3, A5, A7. by repeat split.
Qed.

Lemma inputText_frame k v st :
  let st' := inputText k v st in
  surveyData st' = surveyData st ∧ fetches st' = fetches st ∧
  currentQuestionIndex st' = currentQuestionIndex st ∧
  activeScreen st' = activeScreen st ∧
  surveySummary st' = surveySummary st.
Proof.
  unfold inputText.
  destruct (optionsContainer st !! k) as [[q o b|q i b|q w]|];
    try by repeat split.
  match goal with |- context [updateNavigationButtons ?x] =>
    destruct (updateNavigationButtons_frame x) as (A1&A2&A3&_&A5&_&A7)
  end.
  simpl. rewrite A1, A2, A3, A5, A7. by repeat split.
Qed.

(** The survey definition is never written after loading, and no
    listener fetches it again. *)
Lemma handle_surveyData e st :
  surveyData (handle e st) = surveyData st ∧
  fetches (handle e st) = fetches st.
Proof.
  destruct e; simpl.
  - unfold Survey.startSurvey.
    match goal with |- context [displayQuestion ?x] =>
      destruct (displayQuestion_frame x) as (A1&A2&_) end.
    by rewrite A1, A2.
  - unfold Survey.goPrevious, Survey.previousQuestion.
    destruct (prevDisabled st); [done|].
    destruct (0 <? _); [|done].
    match goal with |- context [displayQuestion ?x] =>
      destruct (displayQuestion_frame x) as (A1&A2&_) end.
    by rewrite A1, A2.
  - unfold Survey.goNext, Survey.nextQuestion.
    destruct (nextDisabled st); [done|].
    destruct (_ <? _); [|done].
    match goal with |- context [displayQuestion ?x] =>
      destruct (displayQuestion_frame x) as (A1&A2&_) end.
    by rewrite A1, A2.
  - done.
  - destruct (clickControl_frame k st) as (A1&A2&_). by rewrite A1, A2.
  - destruct (inputText_frame k value st) as (A1&A2&_). by rewrite A1, A2.
Qed.

Lemma reachable_surveyData qs st :
  reachable qs st -> surveyData st = qs ∧ fetches st = 1%nat.
Proof.
  induction 1 as [|st e _ [IH1 IH2]]; [done|].
  destruct (handle_surveyData e st) as [A1 A2]. by rewrite A1, A2.
Qed.

Lemma handle_index_ok e st : index_ok st -> index_ok (handle e st).
Proof.
  unfold index_ok. intros [Hlo Hhi].
  destruct e; simpl.
  - unfold Survey.startSurvey.
    match goal with |- context [displayQuestion ?x] =>
      destruct (displayQuestion_frame x) as (A1&_&A3&_) end.
    rewrite A1, A3. simpl. lia.
  - unfold Survey.goPrevious, Survey.previousQuestion.
    destruct (prevDisabled st); [done|].
    destruct (Z.ltb_spec 0 (currentQuestionIndex st)); [|done].
    match goal with |- context [displayQuestion ?x] =>
      destruct (displayQuestion_frame x) as (A1&_&A3&_) end.
    rewrite A1, A3. simpl. lia.
  - unfold Survey.goNext, Survey.nextQuestion.
    destruct (nextDisabled st); [done|].
    destruct (Z.ltb_spec (currentQuestionIndex st)
                (Z.of_nat (length (surveyData st)) - 1)); [|simpl; lia].
    match goal with |- context [displayQuestion ?x] =>
      destruct (displayQuestion_frame x) as (A1&_&A3&_) end.
    rewrite A1, A3. simpl. lia.
  - simpl. lia.
  - destruct (clickControl_frame k st) as (A1&_&A3&_). rewrite A1, A3. lia.
  - destruct (inputText_frame k value st) as (A1&_&A3&_).
    rewrite A1, A3. lia.
Qed.

Lemma reachable_index_ok qs st : reachable qs st -> index_ok st.
Proof.
  induction 1 as [|st e _ IH].
  - unfold index_ok. simpl. lia.
  - by apply handle_index_ok.
Qed.

Lemma reachable_run qs es st :
  reachable qs st -> reachable qs (Survey.run engine es st).
Proof.
  revert st. induction es as [|e es IH]; intros st Hr; [done|].
  simpl. apply IH. by constructor.
Qed.

(** *** The next button follows the answers *)

Lemma updateNavigationButtons_gate st q :
  JS.index (surveyData st) (currentQuestionIndex st) = Some q ->
  nextDisabled (updateNavigationButtons st) = gate (answers st) q.
Proof. intros H. unfold updateNavigationButtons. by rewrite H. Qed.

Lemma displayQuestion_gate st q :
  JS.index (surveyData st) (currentQuestionIndex st) = Some q ->
  nextDisabled (displayQuestion st) = gate (answers st) q.
Proof.
  intros H. unfold Survey.displayQuestion. rewrite H.
  match goal with |- context [Survey.restorePreviousAnswer _ ?a ?x] =>
    destruct (restorePreviousAnswer_frame a x) as (_&_&_&_&_&_&B&_) end.
  rewrite B.
  exact (updateNavigationButtons_gate
           (set_container (createOptions q) st) q H).
Qed.

Lemma displayQuestion_synced st : nav_synced (displayQuestion st).
Proof.
  intros _ q Hq.
  destruct (displayQuestion_frame st) as (A1&_&A3&A4&_).
  rewrite A1, A3 in Hq. rewrite A4. by apply displayQuestion_gate.
Qed.

Lemma updateNavigationButtons_synced st :
  nav_synced (updateNavigationButtons st).
Proof.
  intros _ q Hq.
  destruct (updateNavigationButtons_frame st) as (A1&_&A3&A4&_).
  rewrite A1, A3 in Hq. rewrite A4.
  by apply updateNavigationButtons_gate.
Qed.

Lemma handle_synced e st : nav_synced st -> nav_synced (handle e st).
Proof.
  intros IH. destruct e; simpl.
  - apply displayQuestion_synced.
  - unfold Survey.goPrevious, Survey.previousQuestion.
    destruct (prevDisabled st); [done|].
    destruct (0 <? _); [apply displayQuestion_synced | done].
  - unfold Survey.goNext, Survey.nextQuestion.
    destruct (nextDisabled st); [done|].
    destruct (_ <? _); [apply displayQuestion_synced |].
    intros Hs. discriminate Hs.
  - intros Hs. discriminate Hs.
  - unfold clickControl.
    destruct (optionsContainer st !! k) as [[q o b|q i b|q v]|];
      try done; apply updateNavigationButtons_synced.
  - unfold inputText.
    destruct (optionsContainer st !! k) as [[q o b|q i b|q v]|];
      try done; apply updateNavigationButtons_synced.
Qed.

Lemma reachable_synced qs st : reachable qs st -> nav_synced st.
Proof.
  induction 1 as [|st e _ IH].
  - intros Hs. discriminate Hs.
  - by apply handle_synced.
Qed.

Lemma index_Some_range {A} (l : list A) i x :
  JS.index l i = Some x -> 0 ≤ i < Z.of_nat (length l).
Proof.
  unfold JS.index. destruct (Z.ltb_spec i 0); [done|].
  intros Hl. apply lookup_lt_Some in Hl. lia.
Qed.

(** An enabled next button moves one step forward. *)
Lemma nextQuestion_advanced st q :
  JS.index (surveyData st) (currentQuestionIndex st) = Some q ->
  activeScreen st = SurveyScreen ->
  advanced st (nextQuestion st).
Proof.
  intros Hq Hs. apply index_Some_range in Hq.
  unfold advanced, Survey.nextQuestion.
  destruct (Z.ltb_spec (currentQuestionIndex st)
              (Z.of_nat (length (surveyData st)) - 1)).
  - left.
    match goal with |- context [Survey.displayQuestion _ ?x] =>
      destruct (displayQuestion_frame x) as (_&_&A3&_&A5&_) end.
    rewrite A3, A5. simpl. done.
  - right. simpl. repeat split; lia.
Qed.

(** What an answer event does to the state. *)
Lemma handle_written e st q a :
  written e st = Some (q, a) ->
  let st' := handle e st in
  answers st' = <[q_id q := a]> (answers st) ∧
  surveyData st' = surveyData st ∧
  currentQuestionIndex st' = currentQuestionIndex st ∧
  activeScreen st' = activeScreen st.
Proof.
  destruct e; simpl; try done.
  - destruct (clickControl_frame k st) as (A1&_&A3&A4&_).
    rewrite A1, A3, A4. unfold clickControl.
    destruct (optionsContainer st !! k) as [[q' o b|q' i b|q' v]|];
      try done; intros [= -> <-];
      match goal with |- context [updateNavigationButtons ?x] =>
        destruct (updateNavigationButtons_frame x) as (_&_&_&B&_) end;
      by rewrite B.
  - destruct (inputText_frame k value st) as (A1&_&A3&A4&_).
    rewrite A1, A3, A4. unfold inputText.
    destruct (optionsContainer st !! k) as [[q' o b|q' i b|q' v]|];
      try done; intros [= -> <-];
      match goal with |- context [updateNavigationButtons ?x] =>
        destruct (updateNavigationButtons_frame x) as (_&_&_&B&_) end;
      by rewrite B.
Qed.

Lemma nonempty_Some a : a ≠ AStr EmptyString -> nonempty (Some a) = true.
Proof. destruct a as [[|c s]|n]; simpl; congruence. Qed.

(** C1. While the survey screen shows a required question whose answer
    is absent or the empty string, a click on the next button changes
    nothing; once a listener has recorded a non-empty answer for the
    current question, the next click moves forward: to the following
    question, or to the results after the last one. *)
Theorem gating_law qs st q :
  reachable qs st ->
  activeScreen st = SurveyScreen ->
  JS.index (surveyData st) (currentQuestionIndex st) = Some q ->
  (q_required q = true ->
   answers st !! q_id q = None ∨
   answers st !! q_id q = Some (AStr EmptyString) ->
   goNext st = st) ∧
  (∀ e q' a,
     written e st = Some (q', a) -> q_id q' = q_id q ->
     a ≠ AStr EmptyString ->
     answers (handle e st) !! q_id q = Some a ∧
     advanced (handle e st) (goNext (handle e st))).
Proof.
  intros Hr Hs Hq. split.
  - intros Hreq Hans.
    pose proof (reachable_synced _ _ Hr Hs q Hq) as Hd.
    unfold Survey.goNext. rewrite Hd. unfold gate. rewrite Hreq.
    by destruct Hans as [-> | ->].
  - intros e q' a Hw Hid Ha.
    destruct (handle_written _ _ _ _ Hw) as (A1&A2&A3&A4).
    assert (Hl : answers (handle e st) !! q_id q = Some a).
    { rewrite A1, Hid. apply lookup_insert_eq. }
    split; [done|].
    assert (Hq' : JS.index (surveyData (handle e st))
                    (currentQuestionIndex (handle e st)) = Some q)
      by (by rewrite A2, A3).
    assert (Hs' : activeScreen (handle e st) = SurveyScreen)
      by (by rewrite A4).
    pose proof (reachable_synced qs _
                  (reachable_handle engine qs st e Hr) Hs' q Hq') as Hd.
    unfold Survey.goNext. rewrite Hd. unfold gate.
    rewrite Hl, (nonempty_Some a Ha), andb_false_r.
    by eapply nextQuestion_advanced.
Qed.

(** C2. With a non-empty question list, every state the page can reach
    has its index inside the list whenever the survey screen is the
    one shown. *)
Theorem index_in_range qs st :
  qs ≠ [] ->
  reachable qs st ->
  activeScreen st = SurveyScreen ->
  0 ≤ currentQuestionIndex st < Z.of_nat (length qs).
Proof.
  intros Hne Hr _.
  destruct (reachable_index_ok _ _ Hr) as [Hlo Hhi].
  destruct (reachable_surveyData _ _ Hr) as [Hd _]. rewrite Hd in Hhi.
  destruct qs; [done|]. simpl in *. lia.
Qed.

(** C8. At index 0 a click on the previous button, and the listener
    [previousQuestion] itself, return the state they were given: the
    screen, the index and the answers are those of before. *)
Theorem goPrevious_at_first st :
  currentQuestionIndex st = 0 ->
  goPrevious st = st ∧ previousQuestion st = st.
Proof.
  intros H. unfold Survey.goPrevious, Survey.previousQuestion.
  rewrite H. simpl. by destruct (prevDisabled st).
Qed.

(** C9. From the results screen, [restartSurvey] sets the index to 0,
    empties the answers and shows the welcome screen; the loaded
    questions are the same and no fetch is made. *)
Theorem restart_resets st :
  activeScreen st = ResultsScreen ->
  let st' := handle ClickRestart st in
  currentQuestionIndex st' = 0 ∧ answers st' = ∅ ∧
  activeScreen st' = WelcomeScreen ∧
  surveyData st' = surveyData st ∧ fetches st' = fetches st.
Proof. intros _. simpl. by repeat split. Qed.

(** *** Answers are written by the controls of their own question *)

Lemma index_elem_of {A} (l : list A) i x : JS.index l i = Some x -> x ∈ l.
Proof.
  unfold JS.index. destruct (i <? 0); [done|].
  apply list_elem_of_lookup_2.
Qed.

Lemma unique_ids qs q q' :
  NoDup (q_id <$> qs) -> q ∈ qs -> q' ∈ qs -> q_id q = q_id q' -> q = q'.
Proof.
  induction qs as [|x qs IH]; [by intros _ ?%elem_of_nil|].
  rewrite fmap_cons, NoDup_cons. intros [Hx Hnd].
  rewrite !elem_of_cons. intros [->|Hq] [->|Hq'] Hid; try done.
  - destruct Hx. rewrite Hid. by apply list_elem_of_fmap_2.
  - destruct Hx. rewrite <- Hid. by apply list_elem_of_fmap_2.
  - by apply IH.
Qed.

Lemma select_ok qs e : element_ok qs e -> element_ok qs (select e).
Proof. by destruct e. Qed.

Lemma deselect_ok qs e : element_ok qs e -> element_ok qs (deselect e).
Proof. by destruct e. Qed.

Lemma set_value_ok qs v e : element_ok qs e -> element_ok qs (set_value v e).
Proof. by destruct e. Qed.

Lemma createOptions_ok qs q : q ∈ qs -> Forall (element_ok qs) (createOptions q).
Proof.
  intros Hq. unfold createOptions.
  destruct (q_type q) eqn:Ht.
  - unfold createMultipleChoiceOptions. apply Forall_fmap, Forall_forall.
    intros o Ho. by repeat split.
  - unfold createRatingOptions. apply Forall_fmap, Forall_forall.
    intros i Hi%elem_of_seqZ. repeat split; simpl; [done..|lia|lia].
  - unfold createTextInput. by repeat constructor.
Qed.

Lemma restorePreviousAnswer_ok qs q st :
  Forall (element_ok qs) (optionsContainer st) ->
  Forall (element_ok qs) (optionsContainer (restorePreviousAnswer q st)).
Proof.
  intros H. unfold Survey.restorePreviousAnswer.
  destruct (answers st !! q_id q) as [a|]; [|done].
  destruct (falsy a); [done|].
  destruct (q_type q).
  - destruct (querySelector _ _ _); [|done]. simpl.
    apply Forall_alter; [done|]. intros ? _. apply select_ok.
  - destruct (querySelector _ _ _); [|done]. simpl.
    apply Forall_alter; [done|]. intros ? _. apply select_ok.
  - destruct (first_text_input _); [|done]. simpl.
    apply Forall_alter; [done|]. intros ? _. apply set_value_ok.
Qed.

Lemma displayQuestion_ok st :
  Forall (element_ok (surveyData st)) (optionsContainer st) ->
  Forall (element_ok (surveyData st))
         (optionsContainer (displayQuestion st)).
Proof.
  intros H. unfold Survey.displayQuestion.
  destruct (JS.index _ _) as [q|] eqn:Hq; [|done].
  apply restorePreviousAnswer_ok.
  match goal with |- context [updateNavigationButtons ?x] =>
    destruct (updateNavigationButtons_frame x) as (_&_&_&_&_&B&_) end.
  rewrite B. simpl. apply createOptions_ok. by eapply index_elem_of.
Qed.

Lemma insert_answer_ok qs (ans : gmap Z answer) q v :
  NoDup (q_id <$> qs) -> q ∈ qs -> valid_answer q v ->
  (∀ q' a, q' ∈ qs -> ans !! q_id q' = Some a -> valid_answer q' a) ->
  ∀ q' a, q' ∈ qs -> <[q_id q := v]> ans !! q_id q' = Some a ->
          valid_answer q' a.
Proof.
  intros Hnd Hq Hv IH q' a Hq' Hl.
  destruct (decide (q_id q = q_id q')) as [Heq|Hne].
  - rewrite Heq, lookup_insert_eq in Hl. injection Hl as <-.
    by rewrite <- (unique_ids qs q q' Hnd Hq Hq' Heq).
  - rewrite lookup_insert_ne in Hl by done. by eapply IH.
Qed.

Lemma handle_answers_ok qs e st :
  NoDup (q_id <$> qs) -> surveyData st = qs ->
  answers_ok qs st -> answers_ok qs (handle e st).
Proof.
  intros Hnd Hd [Hc Ha]. subst qs. destruct e; simpl.
  - unfold Survey.startSurvey. split.
    + exact (displayQuestion_ok
               (showSurveyScreen (set_answers ∅ (set_index 0 st))) Hc).
    + match goal with |- context [Survey.displayQuestion _ ?x] =>
        destruct (displayQuestion_frame x) as (_&_&_&A4&_) end.
      rewrite A4. simpl. intros q a _. by rewrite lookup_empty.
  - unfold Survey.goPrevious, Survey.previousQuestion.
    destruct (prevDisabled st); [done|].
    destruct (0 <? _); [|done]. split.
    + exact (displayQuestion_ok
               (set_index (currentQuestionIndex st - 1) st) Hc).
    + match goal with |- context [Survey.displayQuestion _ ?x] =>
        destruct (displayQuestion_frame x) as (_&_&_&A4&_) end.
      by rewrite A4.
  - unfold Survey.goNext, Survey.nextQuestion.
    destruct (nextDisabled st); [done|].
    destruct (_ <? _); [|done]. split.
    + exact (displayQuestion_ok
               (set_index (currentQuestionIndex st + 1) st) Hc).
    + match goal with |- context [Survey.displayQuestion _ ?x] =>
        destruct (displayQuestion_frame x) as (_&_&_&A4&_) end.
      by rewrite A4.
  - split; [done|]. simpl. intros q a _. by rewrite lookup_empty.
  - unfold clickControl.
    destruct (optionsContainer st !! k) as [el|] eqn:Hk; [|done].
    pose proof (proj1 (Forall_forall _ _) Hc el
                  (list_elem_of_lookup_2 _ _ _ Hk)) as [Hown Hel].
    destruct el as [q o b|q i b|q v]; [| |done];
      match goal with |- context [updateNavigationButtons ?x] =>
        destruct (updateNavigationButtons_frame x) as (_&_&_&B4&_&B6&_)
      end; (split; [rewrite B6|rewrite B4]); simpl.
    + apply Forall_alter; [|intros ? _; apply select_ok].
      apply Forall_fmap. eapply Forall_impl; [done|].
      intros ?. apply deselect_ok.
    + apply insert_answer_ok; try done. destruct Hel as [Ht Ho].
      split; intros Ht'; [congruence|by exists o].
    + apply Forall_alter; [|intros ? _; apply select_ok].
      apply Forall_fmap. eapply Forall_impl; [done|].
      intros ?. apply deselect_ok.
    + apply insert_answer_ok; try done. destruct Hel as [Ht Hi].
      split; intros Ht'; [by exists i|congruence].
  - unfold inputText.
    destruct (optionsContainer st !! k) as [el|] eqn:Hk; [|done].
    pose proof (proj1 (Forall_forall _ _) Hc el
                  (list_elem_of_lookup_2 _ _ _ Hk)) as [Hown Hel].
    destruct el as [q o b|q i b|q v]; [done|done|].
    match goal with |- context [updateNavigationButtons ?x] =>
      destruct (updateNavigationButtons_frame x) as (_&_&_&B4&_&B6&_)
    end. split; [rewrite B6|rewrite B4]; simpl.
    + by apply Forall_insert.
    + apply insert_answer_ok; try done.
      split; intros Ht'; simpl in Hel; congruence.
Qed.

Lemma reachable_answers_ok qs st :
  NoDup (q_id <$> qs) -> reachable qs st -> answers_ok qs st.
Proof.
  intros Hnd. induction 1 as [|st e Hr IH].
  - split; [constructor|]. simpl. intros q a _. by rewrite lookup_empty.
  - apply handle_answers_ok; [done| |done].
    by destruct (reachable_surveyData _ _ Hr).
Qed.

(** C3. In a survey whose question ids are pairwise distinct, every
    state the page can reach holds, for a rating question, only a
    number from 1 to that question's scale and, for a multiple-choice
    question, only one of that question's options. *)
Theorem answers_fit_questions qs st q a :
  NoDup (q_id <$> qs) ->
  reachable qs st ->
  q ∈ qs ->
  answers st !! q_id q = Some a ->
  (q_type q = Rating -> ∃ n, a = ANum n ∧ 1 ≤ n ≤ q_scale q) ∧
  (q_type q = MultipleChoice -> ∃ o, a = AStr o ∧ o ∈ q_options q).
Proof.
  intros Hnd Hr Hq Ha.
  destruct (reachable_answers_ok qs st Hnd Hr) as [_ H].
  exact (H q a Hq Ha).
Qed.

(** *** The results summary *)

Lemma summary_answer_formatted q a :
  summary_answer q a = Spec.formatted q a.
Proof.
  unfold summary_answer, Spec.formatted. by destruct (q_type q), a.
Qed.

Lemma append_item_pair ans children q :
  append_item ans children q =
  children ++ from_option (λ p, [p]) [] (Spec.pair_of ans q).
Proof.
  unfold append_item, Spec.pair_of.
  destruct (ans !! q_id q) as [[[|c s]|n]|]; simpl;
    rewrite ?summary_answer_formatted, ?app_nil_r; done.
Qed.

Lemma foldl_append_item ans qs children :
  foldl (append_item ans) children qs = children ++ Spec.pairs qs ans.
Proof.
  revert children. induction qs as [|q qs IH]; intros children; simpl.
  - by rewrite app_nil_r.
  - rewrite IH, append_item_pair. unfold Spec.pairs. simpl.
    destruct (Spec.pair_of ans q); simpl.
    + by rewrite <- app_assoc.
    + by rewrite app_nil_r.
Qed.

(** C4. What [displayResults] puts on the results screen is the
    specification's aggregate: the (title, formatted answer) pairs of
    the questions whose answer is neither absent nor the empty string,
    in question order, or the no-responses message when there is no
    such question.  A rating reads value, "out of", scale; a string
    answer of any other question is shown as it is. *)
Theorem results_aggregate :
  (∀ st, surveySummary (displayResults st) =
         Spec.aggregate (surveyData st) (answers st)) ∧
  (∀ qs ans, summary_of qs ans = Spec.aggregate qs ans) ∧
  (∀ q n, q_type q = Rating ->
          summary_answer q (ANum n) =
          pretty n +:+ " out of " +:+ pretty (q_scale q)) ∧
  (∀ q s, q_type q ≠ Rating -> summary_answer q (AStr s) = s).
Proof.
  assert (H : ∀ qs ans, summary_of qs ans = Spec.aggregate qs ans).
  { intros qs ans. unfold summary_of, Spec.aggregate.
    rewrite foldl_append_item. simpl.
    by destruct (Spec.pairs qs ans). }
  repeat split.
  - intros st. simpl. apply H.
  - exact H.
  - intros q n Hq. unfold summary_answer. by rewrite Hq.
  - intros q s Hq. unfold summary_answer. by destruct (q_type q).
Qed.

(** *** Restoring an answer whose text is plain *)

Lemma consume_string_plain s rest :
  plain s = true ->
  consume_string (s +:+ String JS.dquote rest) = Closed s rest.
Proof.
  induction s as [|c r IH]; [done|]. simpl.
  unfold plain_char. intros H.
  repeat (apply andb_prop in H as [H ?]).
  repeat match goal with
         | H : negb ?b = true |- _ =>
             apply negb_true_iff in H; rewrite H
         end.
  by rewrite IH.
Qed.

Lemma parse_selector_plain s :
  plain s = true -> parse_selector (data_value_selector s) = AttrEquals s.
Proof.
  intros H. unfold parse_selector, data_value_selector. simpl.
  by rewrite consume_string_plain.
Qed.

Lemma querySelector_plain s els :
  plain s = true ->
  querySelector engine (data_value_selector s) els = first_with_value s els.
Proof.
  intros H. unfold querySelector. by rewrite parse_selector_plain.
Qed.

Lemma first_with_value_Some v els k :
  first_with_value v els = Some k ->
  ∃ e, els !! k = Some e ∧ data_value e = Some v.
Proof.
  revert k. induction els as [|e els IH]; intros k; [done|]. simpl.
  case_bool_decide as Hv.
  - intros [= <-]. by exists e.
  - destruct (first_with_value v els) as [k'|]; [|done].
    intros [= <-]. by apply IH.
Qed.

Lemma first_with_value_is_Some v els e :
  e ∈ els -> data_value e = Some v -> is_Some (first_with_value v els).
Proof.
  induction els as [|x els IH]; [by intros ?%elem_of_nil|].
  intros [->|He]%elem_of_cons Hv; simpl.
  - rewrite bool_decide_eq_true_2 by done. by eexists.
  - case_bool_decide; [by eexists|].
    destruct (IH He Hv) as [k ->]. by eexists.
Qed.

Lemma createOptions_unselected q e :
  e ∈ createOptions q -> is_selected e = false ∧ owner e = q.
Proof.
  unfold createOptions, createMultipleChoiceOptions, createRatingOptions,
    createTextInput.
  destruct (q_type q).
  - by intros (o&->&_)%list_elem_of_fmap_1.
  - by intros (i&->&_)%list_elem_of_fmap_1.
  - by intros ->%list_elem_of_singleton.
Qed.

(** The container that [displayQuestion] leaves for a choice or a
    rating whose recorded answer has plain text and a control. *)
Lemma displayQuestion_selects st q a e0 :
  JS.index (surveyData st) (currentQuestionIndex st) = Some q ->
  q_type q ≠ TextQ ->
  answers st !! q_id q = Some a ->
  falsy a = false ->
  plain (to_string a) = true ->
  e0 ∈ createOptions q -> data_value e0 = Some (to_string a) ->
  (∀ e, e ∈ createOptions q -> data_value e = Some (to_string a) ->
        control_value e = Some a) ->
  restored q a (optionsContainer (displayQuestion st)).
Proof.
  intros Hq Ht Ha Hf Hp He0 Hv0 Hval.
  unfold Survey.displayQuestion. rewrite Hq.
  set (st1 := updateNavigationButtons
                (set_container (createOptions q) st)).
  assert (Hc : optionsContainer st1 = createOptions q).
  { unfold st1.
    match goal with |- context [updateNavigationButtons ?x] =>
      destruct (updateNavigationButtons_frame x) as (_&_&_&_&_&B&_) end.
    by rewrite B. }
  assert (Ha1 : answers st1 = answers st).
  { unfold st1.
    match goal with |- context [updateNavigationButtons ?x] =>
      destruct (updateNavigationButtons_frame x) as (_&_&_&B&_) end.
    by rewrite B. }
  unfold Survey.restorePreviousAnswer. rewrite Ha1, Ha, Hf, Hc.
  rewrite querySelector_plain by done.
  destruct (first_with_value_is_Some _ _ _ He0 Hv0) as [k Hk].
  rewrite Hk.
  destruct (first_with_value_Some _ _ _ Hk) as (e&Hl&Hv).
  assert (Hin : e ∈ createOptions q) by by eapply list_elem_of_lookup_2.
  assert (Hsel : restored q a (alter select k (createOptions q))).
  { unfold restored.
    assert (∃ k0 e1, alter select k (createOptions q) !! k0 = Some e1 ∧
              is_selected e1 = true ∧ control_value e1 = Some a ∧
              ∀ j e', alter select k (createOptions q) !! j = Some e' ->
                      is_selected e' = true -> j = k0) as Hgoal.
    { exists k, (select e). repeat split.
      - by rewrite list_lookup_alter_eq, Hl.
      - by destruct e.
      - pose proof (Hval e Hin Hv) as Hcv. by destruct e.
      - intros j e' Hj Hs. destruct (decide (j = k)) as [|Hne]; [done|].
        rewrite list_lookup_alter_ne in Hj by done.
        apply list_elem_of_lookup_2, createOptions_unselected in Hj as [Hj _].
        congruence. }
    by destruct (q_type q). }
  by destruct (q_type q).
Qed.

Lemma plain_pretty_N_go x s : plain s = true -> plain (pretty_N_go x s) = true.
Proof.
  revert s. induction (N.lt_wf_0 x) as [x _ IH]; intros s Hs.
  destruct (decide (x = 0%N)) as [->|Hx]; [by rewrite pretty_N_go_0|].
  rewrite pretty_N_go_step by lia. apply IH; [apply N.div_lt; lia|].
  simpl. rewrite Hs, andb_true_r.
  unfold pretty_N_char. by repeat case_match.
Qed.

Lemma plain_pretty (n : Z) : plain (pretty n) = true.
Proof.
  assert (HN : ∀ x : N, plain (pretty x) = true).
  { intros x. unfold pretty, pretty_N.
    case_decide; [done|]. by apply plain_pretty_N_go. }
  destruct n as [|p|p]; [done|apply HN|].
  unfold pretty, pretty_Z. simpl. apply HN.
Qed.

(** The restore law where it holds: redrawing question [q] shows its
    recorded answer, for a rating from 1 to the scale, for a recorded
    option whose text is plain, and for any text. *)
Lemma displayQuestion_restores st q a :
  JS.index (surveyData st) (currentQuestionIndex st) = Some q ->
  answers st !! q_id q = Some a ->
  valid_answer q a ->
  a ≠ AStr EmptyString ->
  (q_type q = TextQ -> ∃ s, a = AStr s) ->
  (q_type q = MultipleChoice -> plain (to_string a) = true) ->
  restored q a (optionsContainer (displayQuestion st)).
Proof.
  intros Hq Ha [Hr Hm] Hne Htext Hplain.
  destruct (q_type q) eqn:Ht.
  - destruct (Hm eq_refl) as (o&->&Ho).
    apply (displayQuestion_selects st q (AStr o) (OptionEl q o false));
      try done.
    + by rewrite Ht.
    + destruct o; [done|done].
    + by apply Hplain.
    + unfold createOptions. rewrite Ht.
      by apply (list_elem_of_fmap_2 (λ o, OptionEl q o false)).
    + unfold createOptions. rewrite Ht.
      by intros e (o'&->&_)%list_elem_of_fmap_1 [= ->].
  - destruct (Hr eq_refl) as (n&->&Hn).
    apply (displayQuestion_selects st q (ANum n) (RatingEl q n false));
      try done.
    + by rewrite Ht.
    + simpl. apply Z.eqb_neq. lia.
    + apply plain_pretty.
    + unfold createOptions. rewrite Ht.
      apply (list_elem_of_fmap_2 (λ i, RatingEl q i false)).
      apply elem_of_seqZ. lia.
    + unfold createOptions. rewrite Ht.
      intros e (i&->&_)%list_elem_of_fmap_1 [= Hi].
      apply (inj pretty) in Hi. by subst.
  - destruct (Htext eq_refl) as [s ->].
    unfold restored. rewrite Ht.
    unfold Survey.displayQuestion. rewrite Hq.
    set (st1 := updateNavigationButtons
                  (set_container (createOptions q) st)).
    assert (Hc : optionsContainer st1 = [TextInput q EmptyString]).
    { unfold st1.
      match goal with |- context [updateNavigationButtons ?x] =>
        destruct (updateNavigationButtons_frame x) as (_&_&_&_&_&B&_) end.
      rewrite B. simpl. unfold createOptions. by rewrite Ht. }
    assert (Ha1 : answers st1 = answers st).
    { unfold st1.
      match goal with |- context [updateNavigationButtons ?x] =>
        destruct (updateNavigationButtons_frame x) as (_&_&_&B&_) end.
      by rewrite B. }
    unfold Survey.restorePreviousAnswer. rewrite Ha1, Ha, Ht, Hc.
    destruct s; [done|]. done.
Qed.

(** Going to the next question and back redraws the question left,
    with the answers as they were. *)
Lemma next_then_previous st q :
  JS.index (surveyData st) (currentQuestionIndex st) = Some q ->
  currentQuestionIndex st + 1 < Z.of_nat (length (surveyData st)) ->
  nextDisabled st = false ->
  ∃ st1, goPrevious (goNext st) = displayQuestion st1 ∧
         surveyData st1 = surveyData st ∧
         currentQuestionIndex st1 = currentQuestionIndex st ∧
         answers st1 = answers st.
Proof.
  intros Hq Hlt Hn. apply index_Some_range in Hq as Hrange.
  unfold Survey.goNext, Survey.nextQuestion. rewrite Hn.
  destruct (Z.ltb_spec (currentQuestionIndex st)
              (Z.of_nat (length (surveyData st)) - 1)); [|lia].
  set (st0 := set_index (currentQuestionIndex st + 1) st).
  destruct (displayQuestion_frame st0) as (A1&_&A3&A4&_).
  assert (Hp : prevDisabled (displayQuestion st0) = false).
  { unfold Survey.displayQuestion.
    destruct (JS.index (surveyData st0) (currentQuestionIndex st0))
      as [q'|] eqn:Hq'.
    - match goal with |- context [Survey.restorePreviousAnswer _ ?a ?x] =>
        destruct (restorePreviousAnswer_frame a x) as (_&_&_&_&_&B&_) end.
      rewrite B, updateNavigationButtons_prev. simpl.
      apply Z.eqb_neq. lia.
    - unfold JS.index in Hq'. simpl in Hq'.
      destruct (Z.ltb_spec (currentQuestionIndex st + 1) 0); [lia|].
      apply lookup_ge_None in Hq'. lia. }
  unfold Survey.goPrevious, Survey.previousQuestion. rewrite Hp, A3.
  simpl.
  destruct (Z.ltb_spec 0 (currentQuestionIndex st + 1)); [|lia].
  eexists. split; [reflexivity|]. simpl. rewrite A1, A4. simpl.
  repeat split. lia.
Qed.

(** X19. The restore law where it holds: from a question with a
    recorded, fitting, non-empty answer and an enabled next button, going
    to the next question and back shows that answer again in the redrawn
    controls (the one control that writes it is selected, or the textarea
    holds it), for every rating and text answer and for every option
    whose text has no quotation mark, backslash, NUL or newline. *)
Lemma restore_after_next_then_previous st q a :
  JS.index (surveyData st) (currentQuestionIndex st) = Some q ->
  currentQuestionIndex st + 1 < Z.of_nat (length (surveyData st)) ->
  nextDisabled st = false ->
  answers st !! q_id q = Some a ->
  valid_answer q a ->
  a ≠ AStr EmptyString ->
  (q_type q = TextQ -> ∃ s, a = AStr s) ->
  (q_type q = MultipleChoice -> plain (to_string a) = true) ->
  restored q a (optionsContainer (goPrevious (goNext st))).
Proof.
  intros Hq Hlt Hn Ha Hv Hne Ht Hp.
  destruct (next_then_previous st q Hq Hlt Hn) as (st1&->&B1&B2&B3).
  apply displayQuestion_restores; try done.
  - by rewrite B1, B2.
  - by rewrite B3.
Qed.

(** C5, at an option that contains a quotation mark.  The option is
    chosen, the user goes to the next question and comes back: the
    answer is still recorded, yet no control of the redrawn question
    is selected, because the selector text built from the answer is
    not a selector and [querySelector] throws. *)
Theorem restore_misses_quoted_option :
  let st := Survey.run engine [ClickStart; ClickControl 0; ClickNext; ClickPrev]
              (initial quoted_survey false false "Next" (SummaryItems [])) in
  activeScreen st = SurveyScreen ∧
  currentQuestionIndex st = 0 ∧
  answers st !! 1 = Some (AStr quoted_option) ∧
  parse_selector (data_value_selector quoted_option) = SyntaxError ∧
  optionsContainer st =
    [OptionEl quoted_question quoted_option false;
     OptionEl quoted_question "No" false].
Proof. repeat split; vm_compute; reflexivity. Qed.

End Laws.

(** *** The theorems at the sample survey *)

Lemma sample_start_reachable : reachable no_engine sample sample_start.
Proof. apply reachable_handle, reachable_initial. Qed.

Lemma gating_law_witness :
  goNext no_engine sample_start = sample_start ∧
  (let st := handle no_engine (ClickControl 1) sample_start in
   answers st !! 1 = Some (AStr "B") ∧
   advanced st (goNext no_engine st)).
Proof.
  destruct (gating_law no_engine sample sample_start q1
              sample_start_reachable eq_refl eq_refl) as [A B].
  split.
  - apply A; [reflexivity | left; reflexivity].
  - apply (B (ClickControl 1) q1 (AStr "B"));
      [reflexivity | reflexivity | discriminate].
Defined.

Lemma index_in_range_witness :
  0 ≤ currentQuestionIndex sample_rated < Z.of_nat (length sample).
Proof.
  apply (index_in_range no_engine sample sample_rated).
  - discriminate.
  - apply reachable_run, reachable_initial.
  - reflexivity.
Defined.

Lemma answers_fit_questions_witness :
  (q_type q2 = Rating -> ∃ n, ANum 4 = ANum n ∧ 1 ≤ n ≤ q_scale q2) ∧
  (q_type q2 = MultipleChoice ->
   ∃ o, ANum 4 = AStr o ∧ o ∈ q_options q2).
Proof.
  apply (answers_fit_questions no_engine sample sample_rated q2 (ANum 4)).
  - apply (bool_decide_unpack (NoDup (q_id <$> sample))). vm_compute.
    exact I.
  - apply reachable_run, reachable_initial.
  - apply list_elem_of_lookup_2 with 1%nat. reflexivity.
  - reflexivity.
Defined.

Lemma goPrevious_at_first_witness :
  goPrevious no_engine sample_start = sample_start ∧
  previousQuestion no_engine sample_start = sample_start.
Proof. apply (goPrevious_at_first no_engine sample_start). reflexivity. Defined.

Lemma restart_resets_witness :
  let st := handle no_engine ClickRestart sample_results in
  currentQuestionIndex st = 0 ∧ answers st = ∅ ∧
  activeScreen st = WelcomeScreen ∧
  surveyData st = surveyData sample_results ∧
  fetches st = fetches sample_results.
Proof. apply (restart_resets no_engine sample_results). reflexivity. Defined.

(** Distinct ids are needed for C3: with one id for a rating and a
    text question, the text typed is stored under the rating's key. *)
Example shared_id_stores_text_for_rating :
  answers
    (run no_engine [ClickStart; ClickNext; InputText 0 "fine"]
       (initial clash_survey false false "Next" (SummaryItems [])))
  !! 1 = Some (AStr "fine").
Proof. vm_compute. reflexivity. Qed.

(** The two scenarios of the specification on the sample survey. *)
Example scenario_choice_only :
  surveySummary
    (run no_engine
       [ClickStart; ClickControl 1; ClickNext; ClickNext; ClickNext]
       sample_initial)
  = SummaryItems [("Pick one", "B")].
Proof. vm_compute. reflexivity. Qed.

Example scenario_rating :
  surveySummary
    (run no_engine
       [ClickStart; ClickControl 1; ClickNext; ClickControl 3;
        ClickNext; ClickNext]
       sample_initial)
  = SummaryItems [("Pick one", "B"); ("Rate it", "4 out of 5")].
Proof. vm_compute. reflexivity. Qed.

Example scenario_nothing_answered :
  surveySummary (completeSurvey sample_initial) = NoResponses.
Proof. vm_compute. reflexivity. Qed.

(** The listener of the next button, called directly, moves on from the
    required first question. *)
Example scenario_listener_ungated :
  currentQuestionIndex (nextQuestion no_engine sample_start) = 1.
Proof. vm_compute. reflexivity. Qed.

(** The click does not: the button is disabled there. *)
Example scenario_gate_closed :
  run no_engine [ClickStart; ClickNext] sample_initial = sample_start.
Proof. vm_compute. reflexivity. Qed.

(** Coming back to an answered question of the sample survey selects the
    recorded control again. *)
Example scenario_restore :
  optionsContainer
    (run no_engine [ClickStart; ClickControl 1; ClickNext; ClickPrev]
       sample_initial)
  = [OptionEl q1 "A" false; OptionEl q1 "B" true].
Proof. vm_compute. reflexivity. Qed.

(** *** More about the survey screen *)

Section Screen.

Variable engine : string -> list element -> option nat.

Local Abbreviation restorePreviousAnswer := (Survey.restorePreviousAnswer engine).
Local Abbreviation displayQuestion := (Survey.displayQuestion engine).
Local Abbreviation startSurvey := (Survey.startSurvey engine).
Local Abbreviation previousQuestion := (Survey.previousQuestion engine).
Local Abbreviation nextQuestion := (Survey.nextQuestion engine).
Local Abbreviation goPrevious := (Survey.goPrevious engine).
Local Abbreviation goNext := (Survey.goNext engine).
Local Abbreviation handle := (Survey.handle engine).
Local Abbreviation reachable := (Survey.reachable engine).

(** **** The buttons *)

Lemma restorePreviousAnswer_nextText q st :
  nextText (restorePreviousAnswer q st) = nextText st.
Proof.
  unfold Survey.restorePreviousAnswer.
  destruct (answers st !! q_id q) as [a|]; [|done].
  destruct (falsy a); [done|].
  destruct (q_type q).
  - by destruct (querySelector _ _ _).
  - by destruct (querySelector _ _ _).
  - by destruct (first_text_input _).
Qed.

Lemma updateNavigationButtons_buttons st :
  buttons_synced (updateNavigationButtons st).
Proof.
  intros _ q Hq.
  destruct (updateNavigationButtons_frame st) as (A1&_&A3&_).
  rewrite A1, A3 in *. rewrite updateNavigationButtons_prev.
  split; [done|]. unfold updateNavigationButtons. by rewrite Hq.
Qed.

Lemma displayQuestion_buttons st : buttons_synced (displayQuestion st).
Proof.
  intros _ q Hq.
  destruct (displayQuestion_frame engine st) as (A1&_&A3&_).
  rewrite A1, A3 in *.
  unfold Survey.displayQuestion. rewrite Hq.
  set (st0 := set_container (createOptions q) st).
  destruct (restorePreviousAnswer_frame engine q (updateNavigationButtons st0))
    as (_&_&_&_&_&B&_).
  rewrite B, restorePreviousAnswer_nextText.
  rewrite updateNavigationButtons_prev.
  split; [done|]. unfold updateNavigationButtons.
  change (JS.index (surveyData st0) (currentQuestionIndex st0))
    with (JS.index (surveyData st) (currentQuestionIndex st)).
  by rewrite Hq.
Qed.

Lemma handle_buttons_synced e st :
  buttons_synced st -> buttons_synced (handle e st).
Proof.
  intros IH. destruct e; simpl.
  - apply displayQuestion_buttons.
  - unfold Survey.goPrevious, Survey.previousQuestion.
    destruct (prevDisabled st); [done|].
    destruct (0 <? _); [apply displayQuestion_buttons | done].
  - unfold Survey.goNext, Survey.nextQuestion.
    destruct (nextDisabled st); [done|].
    destruct (_ <? _); [apply displayQuestion_buttons |].
    intros Hs. discriminate Hs.
  - intros Hs. discriminate Hs.
  - unfold clickControl.
    destruct (optionsContainer st !! k) as [[q o b|q i b|q v]|];
      try done; apply updateNavigationButtons_buttons.
  - unfold inputText.
    destruct (optionsContainer st !! k) as [[q o b|q i b|q v]|];
      try done; apply updateNavigationButtons_buttons.
Qed.

Lemma reachable_buttons_synced qs st : reachable qs st -> buttons_synced st.
Proof.
  induction 1 as [|st e _ IH].
  - intros Hs. discriminate Hs.
  - by apply handle_buttons_synced.
Qed.

(** X1. While the survey screen shows a question, the previous button
    is disabled exactly on the first question, and the next button reads
    "Complete Survey" exactly on the last one and "Next" otherwise. *)
Theorem buttons_follow_index qs st q :
  reachable qs st ->
  activeScreen st = SurveyScreen ->
  JS.index (surveyData st) (currentQuestionIndex st) = Some q ->
  (prevDisabled st = true ↔ currentQuestionIndex st = 0) ∧
  (nextText st = "Complete Survey" ↔
   currentQuestionIndex st = Z.of_nat (length (surveyData st)) - 1) ∧
  (nextText st = "Next" ↔
   currentQuestionIndex st ≠ Z.of_nat (length (surveyData st)) - 1).
Proof.
  intros Hr Hs Hq.
  destruct (reachable_buttons_synced qs st Hr Hs q Hq) as [Hp Hn].
  rewrite Hp, Hn.
  destruct (Z.eqb_spec (currentQuestionIndex st) 0);
    destruct (Z.eqb_spec (currentQuestionIndex st)
                (Z.of_nat (length (surveyData st)) - 1));
    repeat split; intros; try done; try lia.
Qed.

(** X2. Going back is never held up by the answers: on any question
    but the first, a click on the previous button shows the question
    before, whether or not the current one is required or answered, and
    leaves the answers as they are. *)
Theorem previous_always_allowed qs st q :
  reachable qs st ->
  activeScreen st = SurveyScreen ->
  JS.index (surveyData st) (currentQuestionIndex st) = Some q ->
  0 < currentQuestionIndex st ->
  let st' := goPrevious st in
  currentQuestionIndex st' = currentQuestionIndex st - 1 ∧
  activeScreen st' = SurveyScreen ∧
  answers st' = answers st.
Proof.
  intros Hr Hs Hq Hpos.
  destruct (reachable_buttons_synced qs st Hr Hs q Hq) as [Hp _].
  simpl. unfold Survey.goPrevious, Survey.previousQuestion. rewrite Hp.
  destruct (Z.eqb_spec (currentQuestionIndex st) 0); [lia|].
  destruct (Z.ltb_spec 0 (currentQuestionIndex st)); [|lia].
  match goal with |- context [Survey.displayQuestion _ ?x] =>
    destruct (displayQuestion_frame engine x) as (_&_&A3&A4&A5&_) end.
  by rewrite A3, A4, A5.
Qed.

(** X3. A question that is not required never blocks: on the survey
    screen a click on the next button moves forward from it, answered or
    not. *)
Theorem optional_question_passes qs st q :
  reachable qs st ->
  activeScreen st = SurveyScreen ->
  JS.index (surveyData st) (currentQuestionIndex st) = Some q ->
  q_required q = false ->
  advanced st (goNext st).
Proof.
  intros Hr Hs Hq Hreq.
  pose proof (reachable_synced engine qs st Hr Hs q Hq) as Hd.
  unfold Survey.goNext. rewrite Hd. unfold gate. rewrite Hreq. simpl.
  by eapply nextQuestion_advanced.
Qed.

(** X4. The navigation buttons never touch the answers: after a click
    on next or previous, enabled or not, on any screen, the answers
    object is the one before the click. *)
Theorem navigation_keeps_answers st :
  answers (goNext st) = answers st ∧ answers (goPrevious st) = answers st.
Proof.
  split.
  - unfold Survey.goNext, Survey.nextQuestion.
    destruct (nextDisabled st); [done|].
    destruct (_ <? _); [|done].
    match goal with |- context [Survey.displayQuestion _ ?x] =>
      destruct (displayQuestion_frame engine x) as (_&_&_&A4&_) end.
    by rewrite A4.
  - unfold Survey.goPrevious, Survey.previousQuestion.
    destruct (prevDisabled st); [done|].
    destruct (0 <? _); [|done].
    match goal with |- context [Survey.displayQuestion _ ?x] =>
      destruct (displayQuestion_frame engine x) as (_&_&_&A4&_) end.
    by rewrite A4.
Qed.

(** X5. [startSurvey] from any state: index 0, no answers, the survey
    screen; with a non-empty survey the container holds the fresh
    controls of the first question, the previous button is disabled and
    the next button is disabled exactly when that question is required;
    with an empty survey the container is left as it was. *)
Theorem start_resets st :
  let st' := handle ClickStart st in
  currentQuestionIndex st' = 0 ∧ answers st' = ∅ ∧
  activeScreen st' = SurveyScreen ∧
  (∀ q rest, surveyData st = q :: rest ->
     optionsContainer st' = createOptions q ∧
     prevDisabled st' = true ∧ nextDisabled st' = q_required q) ∧
  (surveyData st = [] -> optionsContainer st' = optionsContainer st).
Proof.
  simpl. unfold Survey.startSurvey.
  match goal with |- context [Survey.displayQuestion _ ?x] =>
    destruct (displayQuestion_frame engine x) as (_&_&A3&A4&A5&_);
    set (st0 := x) in * end.
  rewrite A3, A4, A5.
  split; [done|]. split; [done|]. split; [done|]. split.
  - intros q rest Hd. unfold Survey.displayQuestion.
    assert (Hq : JS.index (surveyData st0) (currentQuestionIndex st0) = Some q)
      by (simpl; by rewrite Hd).
    rewrite Hq. unfold Survey.restorePreviousAnswer.
    match goal with |- context [updateNavigationButtons ?x] =>
      destruct (updateNavigationButtons_frame x) as (_&_&_&B4&_&B6&_);
      pose proof (updateNavigationButtons_prev x) as Bp;
      pose proof (updateNavigationButtons_gate x q Hq) as Bn end.
    rewrite B4. simpl. rewrite lookup_empty. rewrite B6, Bp, Bn. simpl.
    unfold gate. rewrite lookup_empty. simpl. by rewrite andb_true_r.
  - intros Hd. unfold Survey.displayQuestion. simpl. by rewrite Hd.
Qed.

(** **** The keys of the answers object *)

Lemma owner_select e : owner (select e) = owner e.
Proof. by destruct e. Qed.

Lemma owner_deselect e : owner (deselect e) = owner e.
Proof. by destruct e. Qed.

Lemma owner_set_value v e : owner (set_value v e) = owner e.
Proof. by destruct e. Qed.

Lemma displayQuestion_owners st :
  Forall (λ e, owner e ∈ surveyData st) (optionsContainer st) ->
  Forall (λ e, owner e ∈ surveyData st) (optionsContainer (displayQuestion st)).
Proof.
  intros H. unfold Survey.displayQuestion.
  destruct (JS.index _ _) as [q|] eqn:Hq; [|done].
  apply index_elem_of in Hq.
  set (st1 := updateNavigationButtons (set_container (createOptions q) st)).
  assert (Hc : Forall (λ e, owner e ∈ surveyData st) (optionsContainer st1)).
  { unfold st1.
    match goal with |- context [updateNavigationButtons ?x] =>
      destruct (updateNavigationButtons_frame x) as (_&_&_&_&_&B&_) end.
    rewrite B. simpl. apply Forall_forall.
    by intros e [_ ->]%createOptions_unselected. }
  unfold Survey.restorePreviousAnswer.
  destruct (answers st1 !! q_id q) as [a|]; [|done].
  destruct (falsy a); [done|].
  destruct (q_type q).
  - destruct (querySelector _ _ _); [|done]. simpl.
    apply Forall_alter; [done|]. intros e _. by rewrite owner_select.
  - destruct (querySelector _ _ _); [|done]. simpl.
    apply Forall_alter; [done|]. intros e _. by rewrite owner_select.
  - destruct (first_text_input _); [|done]. simpl.
    apply Forall_alter; [done|]. intros e _. by rewrite owner_set_value.
Qed.

Lemma insert_key_ok (qs : list question) (ans : gmap Z answer) q v :
  q ∈ qs ->
  (∀ k a, ans !! k = Some a -> ∃ q', q' ∈ qs ∧ q_id q' = k) ->
  ∀ k a, <[q_id q := v]> ans !! k = Some a -> ∃ q', q' ∈ qs ∧ q_id q' = k.
Proof.
  intros Hq IH k a Hl.
  destruct (decide (q_id q = k)) as [<-|Hne]; [by exists q|].
  rewrite lookup_insert_ne in Hl by done. by eapply IH.
Qed.

Lemma handle_keys_ok e st :
  keys_ok (surveyData st) st -> keys_ok (surveyData st) (handle e st).
Proof.
  intros [Hc Ha]. destruct e; simpl.
  - unfold Survey.startSurvey. split.
    + exact (displayQuestion_owners
               (showSurveyScreen (set_answers ∅ (set_index 0 st))) Hc).
    + match goal with |- context [Survey.displayQuestion _ ?x] =>
        destruct (displayQuestion_frame engine x) as (_&_&_&A4&_) end.
      rewrite A4. simpl. intros k a. by rewrite lookup_empty.
  - unfold Survey.goPrevious, Survey.previousQuestion.
    destruct (prevDisabled st); [done|].
    destruct (0 <? _); [|done]. split.
    + exact (displayQuestion_owners
               (set_index (currentQuestionIndex st - 1) st) Hc).
    + match goal with |- context [Survey.displayQuestion _ ?x] =>
        destruct (displayQuestion_frame engine x) as (_&_&_&A4&_) end.
      by rewrite A4.
  - unfold Survey.goNext, Survey.nextQuestion.
    destruct (nextDisabled st); [done|].
    destruct (_ <? _); [|done]. split.
    + exact (displayQuestion_owners
               (set_index (currentQuestionIndex st + 1) st) Hc).
    + match goal with |- context [Survey.displayQuestion _ ?x] =>
        destruct (displayQuestion_frame engine x) as (_&_&_&A4&_) end.
      by rewrite A4.
  - split; [done|]. simpl. intros k a. by rewrite lookup_empty.
  - unfold clickControl.
    destruct (optionsContainer st !! k) as [el|] eqn:Hk; [|done].
    pose proof (proj1 (Forall_forall _ _) Hc el
                  (list_elem_of_lookup_2 _ _ _ Hk)) as Hown.
    destruct el as [q o b|q i b|q v]; [| |done];
      match goal with |- context [updateNavigationButtons ?x] =>
        destruct (updateNavigationButtons_frame x) as (_&_&_&B4&_&B6&_)
      end; (split; [rewrite B6|rewrite B4]); simpl;
      try (by apply insert_key_ok);
      (apply Forall_alter; [|intros e _; by rewrite owner_select]);
      apply Forall_fmap; (eapply Forall_impl; [done|]);
      intros e; simpl; by rewrite owner_deselect.
  - unfold inputText.
    destruct (optionsContainer st !! k) as [el|] eqn:Hk; [|done].
    pose proof (proj1 (Forall_forall _ _) Hc el
                  (list_elem_of_lookup_2 _ _ _ Hk)) as Hown.
    destruct el as [q o b|q i b|q v]; [done|done|].
    match goal with |- context [updateNavigationButtons ?x] =>
      destruct (updateNavigationButtons_frame x) as (_&_&_&B4&_&B6&_)
    end. split; [rewrite B6|rewrite B4]; simpl.
    + by apply Forall_insert.
    + by apply insert_key_ok.
Qed.

(** X6. Every key of the answers object is the id of a question of the
    loaded survey, in every state the page can reach (no assumption on
    the ids). *)
Theorem answer_keys_are_question_ids qs st k a :
  reachable qs st ->
  answers st !! k = Some a ->
  ∃ q, q ∈ qs ∧ q_id q = k.
Proof.
  intros Hr. revert k a.
  cut (keys_ok qs st); [by intros [_ H]|].
  induction Hr as [|st e Hr IH].
  - split; [constructor|]. simpl. intros k a. by rewrite lookup_empty.
  - destruct (reachable_surveyData engine qs st Hr) as [Hd _].
    destruct (handle_surveyData engine e st) as [Hd' _].
    rewrite <- Hd in IH |- *. by apply handle_keys_ok.
Qed.

(** **** The controls on the survey screen *)

Lemma is_selected_set_value v e : is_selected (set_value v e) = is_selected e.
Proof. by destruct e. Qed.

Lemma alter_select_one (l : list element) k :
  (∀ e, e ∈ l -> is_selected e = false) ->
  at_most_one_selected (alter select k l).
Proof.
  intros Hl i j ei ej Hi Hj Si Sj.
  destruct (decide (i = k)) as [->|Hik], (decide (j = k)) as [->|Hjk];
    [done| | |].
  - rewrite list_lookup_alter_ne in Hj by done.
    apply list_elem_of_lookup_2, Hl in Hj. congruence.
  - rewrite list_lookup_alter_ne in Hi by done.
    apply list_elem_of_lookup_2, Hl in Hi. congruence.
  - rewrite list_lookup_alter_ne in Hi by done.
    apply list_elem_of_lookup_2, Hl in Hi. congruence.
Qed.

Lemma alter_keeps_selection (f : element -> element) (l : list element) k :
  (∀ e, is_selected (f e) = is_selected e) ->
  (∀ e, e ∈ l -> is_selected e = false) ->
  ∀ e, e ∈ alter f k l -> is_selected e = false.
Proof.
  intros Hf Hl e [i Hi]%list_elem_of_lookup_1.
  destruct (decide (i = k)) as [->|Hne].
  - rewrite list_lookup_alter_eq in Hi.
    destruct (l !! k) as [e0|] eqn:Hk; [|done]. injection Hi as <-.
    rewrite Hf. by eapply Hl, list_elem_of_lookup_2.
  - rewrite list_lookup_alter_ne in Hi by done.
    by eapply Hl, list_elem_of_lookup_2.
Qed.

Lemma none_selected_at_most_one (l : list element) :
  (∀ e, e ∈ l -> is_selected e = false) -> at_most_one_selected l.
Proof.
  intros Hl i j ei ej Hi _ Si _.
  apply list_elem_of_lookup_2, Hl in Hi. congruence.
Qed.

Lemma displayQuestion_at_most_one st :
  at_most_one_selected (optionsContainer st) ->
  at_most_one_selected (optionsContainer (displayQuestion st)).
Proof.
  intros IH. unfold Survey.displayQuestion.
  destruct (JS.index _ _) as [q|]; [|done].
  set (st1 := updateNavigationButtons (set_container (createOptions q) st)).
  assert (Hc : optionsContainer st1 = createOptions q).
  { unfold st1.
    match goal with |- context [updateNavigationButtons ?x] =>
      destruct (updateNavigationButtons_frame x) as (_&_&_&_&_&B&_) end.
    by rewrite B. }
  assert (Hn : ∀ e, e ∈ createOptions q -> is_selected e = false)
    by (by intros e [? _]%createOptions_unselected).
  unfold Survey.restorePreviousAnswer.
  destruct (answers st1 !! q_id q) as [a|];
    [|rewrite Hc; by apply none_selected_at_most_one].
  destruct (falsy a); [rewrite Hc; by apply none_selected_at_most_one|].
  destruct (q_type q).
  - destruct (querySelector _ _ _); simpl; rewrite Hc;
      [by apply alter_select_one | by apply none_selected_at_most_one].
  - destruct (querySelector _ _ _); simpl; rewrite Hc;
      [by apply alter_select_one | by apply none_selected_at_most_one].
  - destruct (first_text_input _); simpl; rewrite Hc;
      [|by apply none_selected_at_most_one].
    apply none_selected_at_most_one.
    apply alter_keeps_selection; [apply is_selected_set_value | done].
Qed.

Lemma deselected_all (l : list element) e :
  e ∈ deselect <$> l -> is_selected e = false.
Proof. intros (e0&->&_)%list_elem_of_fmap_1. by destruct e0. Qed.

Lemma handle_at_most_one e st :
  at_most_one_selected (optionsContainer st) ->
  at_most_one_selected (optionsContainer (handle e st)).
Proof.
  intros IH. destruct e; simpl.
  - unfold Survey.startSurvey.
    exact (displayQuestion_at_most_one
             (showSurveyScreen (set_answers ∅ (set_index 0 st))) IH).
  - unfold Survey.goPrevious, Survey.previousQuestion.
    destruct (prevDisabled st); [done|].
    destruct (0 <? _); [|done].
    exact (displayQuestion_at_most_one
             (set_index (currentQuestionIndex st - 1) st) IH).
  - unfold Survey.goNext, Survey.nextQuestion.
    destruct (nextDisabled st); [done|].
    destruct (_ <? _); [|done].
    exact (displayQuestion_at_most_one
             (set_index (currentQuestionIndex st + 1) st) IH).
  - done.
  - unfold clickControl.
    destruct (optionsContainer st !! k) as [[q o b|q i b|q v]|]; try done;
      match goal with |- context [updateNavigationButtons ?x] =>
        destruct (updateNavigationButtons_frame x) as (_&_&_&_&_&B6&_)
      end; rewrite B6; simpl;
      apply alter_select_one, deselected_all.
  - unfold inputText.
    destruct (optionsContainer st !! k) as [[q o b|q i b|q v]|]; try done.
    match goal with |- context [updateNavigationButtons ?x] =>
      destruct (updateNavigationButtons_frame x) as (_&_&_&_&_&B6&_)
    end. rewrite B6. simpl.
    intros i j ei ej Hi Hj Si Sj.
    apply list_lookup_insert_Some in Hi as [(_&<-&_)|[_ Hi]]; [done|].
    apply list_lookup_insert_Some in Hj as [(_&<-&_)|[_ Hj]]; [done|].
    by eapply IH.
Qed.

(** X7. Single selection: in every state the page can reach, at most
    one control of the container carries the [selected] class, whatever
    the selector engine finds when an answer is restored. *)
Theorem at_most_one_control_selected qs st :
  reachable qs st -> at_most_one_selected (optionsContainer st).
Proof.
  induction 1 as [|st e _ IH].
  - simpl. intros i j ei ej Hi. by rewrite lookup_nil in Hi.
  - by apply handle_at_most_one.
Qed.

(** X8. A click on an option or rating control records that control's
    value under its question's id, selects the control and leaves every
    other control unselected. *)
Theorem click_selects_and_records st k e a :
  optionsContainer st !! k = Some e ->
  control_value e = Some a ->
  let st' := handle (ClickControl k) st in
  answers st' !! q_id (owner e) = Some a ∧
  ∀ j e', optionsContainer st' !! j = Some e' ->
          (is_selected e' = true ↔ j = k).
Proof.
  intros Hk Hv. simpl. unfold clickControl. rewrite Hk.
  assert (Hsel : ∀ j e',
            alter select k (deselect <$> optionsContainer st) !! j = Some e' ->
            (is_selected e' = true ↔ j = k)).
  { intros j e' Hj. destruct (decide (j = k)) as [->|Hne].
    - rewrite list_lookup_alter_eq, list_lookup_fmap, Hk in Hj.
      injection Hj as <-. by destruct e.
    - rewrite list_lookup_alter_ne in Hj by done.
      apply list_elem_of_lookup_2, deselected_all in Hj.
      split; [congruence|done]. }
  destruct e as [q o b|q i b|q v]; [| |done]; injection Hv as <-;
    match goal with |- context [updateNavigationButtons ?x] =>
      destruct (updateNavigationButtons_frame x) as (_&_&_&B4&_&B6&_)
    end; rewrite B4, B6; simpl; (split; [apply lookup_insert_eq|done]).
Qed.

Lemma unmarked_idem_on f :
  (∀ e, unmarked (f e) = unmarked e) ->
  ∀ (l : list element) k, unmarked <$> alter f k l = unmarked <$> l.
Proof.
  intros Hf l k. apply list_eq. intros i.
  rewrite !list_lookup_fmap.
  destruct (decide (i = k)) as [->|Hne].
  - rewrite list_lookup_alter_eq. destruct (l !! k); simpl; [|done].
    by rewrite Hf.
  - by rewrite list_lookup_alter_ne.
Qed.

Lemma unmarked_select e : unmarked (select e) = unmarked e.
Proof. by destruct e. Qed.

Lemma unmarked_deselect e : unmarked (deselect e) = unmarked e.
Proof. by destruct e. Qed.

Lemma unmarked_set_value v e : unmarked (set_value v e) = unmarked e.
Proof. by destruct e. Qed.

Lemma unmarked_createOptions q : unmarked <$> createOptions q = createOptions q.
Proof.
  unfold createOptions, createMultipleChoiceOptions, createRatingOptions,
    createTextInput.
  destruct (q_type q); [| |done]; by rewrite <- list_fmap_compose.
Qed.

Lemma restorePreviousAnswer_unmarked q st :
  unmarked <$> optionsContainer (restorePreviousAnswer q st) =
  unmarked <$> optionsContainer st.
Proof.
  unfold Survey.restorePreviousAnswer.
  destruct (answers st !! q_id q) as [a|]; [|done].
  destruct (falsy a); [done|].
  destruct (q_type q).
  - destruct (querySelector _ _ _); [|done]. simpl.
    apply unmarked_idem_on, unmarked_select.
  - destruct (querySelector _ _ _); [|done]. simpl.
    apply unmarked_idem_on, unmarked_select.
  - destruct (first_text_input _); [|done]. simpl.
    apply unmarked_idem_on, unmarked_set_value.
Qed.

Lemma displayQuestion_shows st : shows_question (displayQuestion st).
Proof.
  intros _ q Hq.
  destruct (displayQuestion_frame engine st) as (A1&_&A3&_).
  rewrite A1, A3 in Hq.
  unfold Survey.displayQuestion. rewrite Hq.
  rewrite restorePreviousAnswer_unmarked.
  match goal with |- context [updateNavigationButtons ?x] =>
    destruct (updateNavigationButtons_frame x) as (_&_&_&_&_&B&_) end.
  rewrite B. simpl. apply unmarked_createOptions.
Qed.

Lemma handle_shows e st : shows_question st -> shows_question (handle e st).
Proof.
  intros IH. destruct e; simpl.
  - apply displayQuestion_shows.
  - unfold Survey.goPrevious, Survey.previousQuestion.
    destruct (prevDisabled st); [done|].
    destruct (0 <? _); [apply displayQuestion_shows | done].
  - unfold Survey.goNext, Survey.nextQuestion.
    destruct (nextDisabled st); [done|].
    destruct (_ <? _); [apply displayQuestion_shows |].
    intros Hs. discriminate Hs.
  - intros Hs. discriminate Hs.
  - destruct (clickControl_frame k st) as (A1&_&A3&A4&_).
    intros Hs q Hq. rewrite A1, A3 in Hq. rewrite A4 in Hs.
    rewrite <- (IH Hs q Hq). unfold clickControl.
    destruct (optionsContainer st !! k) as [[q' o b|q' i b|q' v]|]; try done;
      match goal with |- context [updateNavigationButtons ?x] =>
        destruct (updateNavigationButtons_frame x) as (_&_&_&_&_&B6&_)
      end; rewrite B6; simpl;
      rewrite (unmarked_idem_on select unmarked_select),
        <- list_fmap_compose;
      apply list_fmap_ext; intros ? e _; apply unmarked_deselect.
  - destruct (inputText_frame k value st) as (A1&_&A3&A4&_).
    intros Hs q Hq. rewrite A1, A3 in Hq. rewrite A4 in Hs.
    rewrite <- (IH Hs q Hq). unfold inputText.
    destruct (optionsContainer st !! k) as [[q' o b|q' i b|q' v]|] eqn:Hk;
      try done.
    match goal with |- context [updateNavigationButtons ?x] =>
      destruct (updateNavigationButtons_frame x) as (_&_&_&_&_&B6&_)
    end. rewrite B6. simpl.
    apply list_eq. intros i. rewrite !list_lookup_fmap.
    destruct (decide (i = k)) as [->|Hne].
    + rewrite list_lookup_insert_eq by (by eapply lookup_lt_Some).
      by rewrite Hk.
    + by rewrite list_lookup_insert_ne.
Qed.

Lemma reachable_shows qs st : reachable qs st -> shows_question st.
Proof.
  induction 1 as [|st e _ IH].
  - intros Hs. discriminate Hs.
  - by apply handle_shows.
Qed.

Lemma control_value_unmarked e : control_value (unmarked e) = control_value e.
Proof. by destruct e. Qed.

Lemma owner_unmarked e : owner (unmarked e) = owner e.
Proof. by destruct e. Qed.

(** X9. While the survey screen shows question [q], the container holds
    the controls of [q] and of no other question: one control per option,
    in the order of [options], for a multiple-choice question; the
    controls 1 to [scale], in order, for a rating; one textarea for a
    text question. *)
Theorem screen_shows_current_question qs st q :
  reachable qs st ->
  activeScreen st = SurveyScreen ->
  JS.index (surveyData st) (currentQuestionIndex st) = Some q ->
  Forall (λ e, owner e = q) (optionsContainer st) ∧
  match q_type q with
  | MultipleChoice =>
      control_value <$> optionsContainer st = Some ∘ AStr <$> q_options q
  | Rating =>
      control_value <$> optionsContainer st =
      Some ∘ ANum <$> seqZ 1 (q_scale q)
  | TextQ => ∃ v, optionsContainer st = [TextInput q v]
  end.
Proof.
  intros Hr Hs Hq.
  pose proof (reachable_shows qs st Hr Hs q Hq) as Hc. split.
  - apply Forall_forall. intros e He.
    apply (list_elem_of_fmap_2 unmarked) in He. rewrite Hc in He.
    apply createOptions_unselected in He as [_ He].
    by rewrite owner_unmarked in He.
  - assert (Hv : control_value <$> optionsContainer st =
                 control_value <$> createOptions q).
    { rewrite <- Hc, <- list_fmap_compose.
      apply list_fmap_ext. intros ? e _. simpl.
      by rewrite control_value_unmarked. }
    unfold createOptions, createMultipleChoiceOptions, createRatingOptions,
      createTextInput in *.
    destruct (q_type q).
    + by rewrite Hv, <- list_fmap_compose.
    + by rewrite Hv, <- list_fmap_compose.
    + destruct (optionsContainer st) as [|e [|e' l]]; try done.
      injection Hc as Hc. destruct e as [| |q' v]; try done.
      injection Hc as ->. by exists v.
Qed.

(** X10. Typing into the textarea of the text question on screen is
    live: each input event stores the whole current content under the
    question's id, and for a required question the next button is
    disabled exactly while that content is the empty string. *)
Theorem text_input_live qs st q value :
  reachable qs st ->
  activeScreen st = SurveyScreen ->
  JS.index (surveyData st) (currentQuestionIndex st) = Some q ->
  q_type q = TextQ ->
  let st' := handle (InputText 0 value) st in
  answers st' !! q_id q = Some (AStr value) ∧
  optionsContainer st' = [TextInput q value] ∧
  nextDisabled st' = q_required q && JS.is_empty value.
Proof.
  intros Hr Hs Hq Ht.
  pose proof (reachable_shows qs st Hr Hs q Hq) as Hc.
  unfold createOptions, createTextInput in Hc. rewrite Ht in Hc.
  destruct (optionsContainer st) as [|e [|e' l]] eqn:Hcont; try done.
  injection Hc as Hc. destruct e as [| |q' v]; try done.
  injection Hc as ->.
  simpl. unfold inputText. rewrite Hcont. simpl.
  match goal with |- context [updateNavigationButtons ?x] =>
    destruct (updateNavigationButtons_frame x) as (_&_&_&B4&_&B6&_);
    pose proof (updateNavigationButtons_gate x q Hq) as Bn
  end.
  rewrite B4, B6, Bn. simpl. unfold gate.
  rewrite lookup_insert_eq. simpl. by rewrite negb_involutive.
Qed.

(** **** Completing the survey *)

Lemma pairs_nil qs (ans : gmap Z answer) :
  Spec.pairs qs ans = [] ↔ ∀ q, q ∈ qs -> nonempty (ans !! q_id q) = false.
Proof.
  unfold Spec.pairs. induction qs as [|q qs IH]; simpl.
  - split; [by intros _ q ?%elem_of_nil|done].
  - assert (Hp : Spec.pair_of ans q = None ↔ nonempty (ans !! q_id q) = false).
    { unfold Spec.pair_of. by destruct (ans !! q_id q) as [[[|c r]|n]|]. }
    destruct (Spec.pair_of ans q) as [p|] eqn:Hq.
    + split; [done|]. intros H.
      assert (Some p = None) by (apply Hp, H; by left). done.
    + rewrite IH. split.
      * intros H q' [->|Hq']%elem_of_cons; [by apply Hp|by apply H].
      * intros H q' Hq'. apply H. by right.
Qed.

(** X23. Completing the survey: a click on the enabled next button at
    or past the last index shows the results screen, keeps the index
    and the answers, and fills the summary from them; the summary is the
    "No responses recorded." message exactly when no question has an
    answer other than the empty string. *)
Theorem complete_shows_summary st :
  nextDisabled st = false ->
  Z.of_nat (length (surveyData st)) - 1 ≤ currentQuestionIndex st ->
  let st' := goNext st in
  activeScreen st' = ResultsScreen ∧
  currentQuestionIndex st' = currentQuestionIndex st ∧
  answers st' = answers st ∧
  surveySummary st' = summary_of (surveyData st) (answers st) ∧
  (surveySummary st' = NoResponses ↔
   ∀ q, q ∈ surveyData st -> nonempty (answers st !! q_id q) = false).
Proof.
  intros Hn Hlast. simpl. unfold Survey.goNext, Survey.nextQuestion.
  rewrite Hn.
  destruct (Z.ltb_spec (currentQuestionIndex st)
              (Z.of_nat (length (surveyData st)) - 1)); [lia|].
  simpl. split_and!; try done.
  unfold summary_of. rewrite foldl_append_item, <- pairs_nil. simpl.
  by destruct (Spec.pairs (surveyData st) (answers st)).
Qed.

End Screen.

(** *** The further theorems at the sample survey *)

Lemma sample_second_reachable : reachable no_engine sample sample_second.
Proof. apply reachable_run, reachable_initial. Qed.

Lemma buttons_follow_index_witness :
  (prevDisabled sample_second = true ↔ currentQuestionIndex sample_second = 0) ∧
  (nextText sample_second = "Complete Survey" ↔
   currentQuestionIndex sample_second
   = Z.of_nat (length (surveyData sample_second)) - 1) ∧
  (nextText sample_second = "Next" ↔
   currentQuestionIndex sample_second
   ≠ Z.of_nat (length (surveyData sample_second)) - 1).
Proof.
  apply (buttons_follow_index no_engine sample sample_second q2);
    [apply sample_second_reachable | reflexivity | reflexivity].
Defined.

Lemma previous_always_allowed_witness :
  let st' := goPrevious no_engine sample_second in
  currentQuestionIndex st' = currentQuestionIndex sample_second - 1 ∧
  activeScreen st' = SurveyScreen ∧
  answers st' = answers sample_second.
Proof.
  apply (previous_always_allowed no_engine sample sample_second q2);
    [apply sample_second_reachable | reflexivity | reflexivity | reflexivity].
Defined.

Lemma optional_question_passes_witness :
  advanced sample_second (goNext no_engine sample_second).
Proof.
  apply (optional_question_passes no_engine sample sample_second q2);
    [apply sample_second_reachable | reflexivity | reflexivity | reflexivity].
Defined.

Lemma answer_keys_are_question_ids_witness : ∃ q, q ∈ sample ∧ q_id q = 1.
Proof.
  apply (answer_keys_are_question_ids no_engine sample sample_second 1
           (AStr "A")); [apply sample_second_reachable | reflexivity].
Defined.

Lemma at_most_one_control_selected_witness :
  at_most_one_selected (optionsContainer sample_answered).
Proof.
  apply (at_most_one_control_selected no_engine sample sample_answered).
  apply reachable_run, reachable_initial.
Defined.

Lemma click_selects_and_records_witness :
  let st' := handle no_engine (ClickControl 1) sample_start in
  answers st' !! q_id q1 = Some (AStr "B") ∧
  ∀ j e', optionsContainer st' !! j = Some e' ->
          (is_selected e' = true ↔ j = 1%nat).
Proof.
  apply (click_selects_and_records no_engine sample_start 1
           (OptionEl q1 "B" false) (AStr "B")); reflexivity.
Defined.

Lemma screen_shows_current_question_witness :
  Forall (λ e, owner e = q2) (optionsContainer sample_second) ∧
  control_value <$> optionsContainer sample_second =
  Some ∘ ANum <$> seqZ 1 (q_scale q2).
Proof.
  apply (screen_shows_current_question no_engine sample sample_second q2);
    [apply sample_second_reachable | reflexivity | reflexivity].
Defined.

Lemma text_input_live_witness :
  let st' := handle no_engine (InputText 0 "ok") sample_third in
  answers st' !! q_id q3 = Some (AStr "ok") ∧
  optionsContainer st' = [TextInput q3 "ok"] ∧
  nextDisabled st' = q_required q3 && JS.is_empty "ok".
Proof.
  apply (text_input_live no_engine sample sample_third q3 "ok");
    [apply reachable_run, reachable_initial
    | reflexivity | reflexivity | reflexivity].
Defined.

Lemma complete_shows_summary_witness :
  let st' := goNext no_engine sample_third in
  activeScreen st' = ResultsScreen ∧
  currentQuestionIndex st' = currentQuestionIndex sample_third ∧
  answers st' = answers sample_third ∧
  surveySummary st'
    = summary_of (surveyData sample_third) (answers sample_third) ∧
  (surveySummary st' = NoResponses ↔
   ∀ q, q ∈ surveyData sample_third ->
        nonempty (answers sample_third !! q_id q) = false).
Proof.
  apply (complete_shows_summary no_engine sample_third).
  - reflexivity.
  - discriminate.
Defined.

Lemma restore_after_next_then_previous_witness :
  restored q1 (AStr "A")
    (optionsContainer (goPrevious no_engine (goNext no_engine sample_answered))).
Proof.
  apply (restore_after_next_then_previous no_engine sample_answered q1
           (AStr "A")).
  - reflexivity.
  - reflexivity.
  - reflexivity.
  - reflexivity.
  - split; intros Ht; [discriminate Ht|].
    exists "A". split; [reflexivity|]. apply list_elem_of_here.
  - discriminate.
  - intros Ht. discriminate Ht.
  - reflexivity.
Defined.

End SurveyLaws.

(** ** Properties of the categories service *)

Module CategoryLaws.
Import Categories.

(** *** Strings *)

Lemma is_empty_trimEnd s : JS.is_empty (JS.trimEnd s) = blank s.
Proof.
  induction s as [|c r IH]; [done|]. simpl. rewrite IH.
  by destruct (JS.is_space c), (blank r).
Qed.

Lemma blank_trimEnd s : blank (JS.trimEnd s) = blank s.
Proof.
  induction s as [|c r IH]; [done|]. simpl.
  rewrite is_empty_trimEnd.
  destruct (JS.is_space c) eqn:Hc, (blank r) eqn:Hr; simpl;
    rewrite ?Hc, ?IH; done.
Qed.

Lemma blank_trimStart s : blank (JS.trimStart s) = blank s.
Proof.
  induction s as [|c r IH]; [done|]. simpl.
  destruct (JS.is_space c) eqn:Hc; simpl; by rewrite ?Hc.
Qed.

Lemma is_empty_trim s : JS.is_empty (JS.trim s) = blank s.
Proof. unfold JS.trim. by rewrite is_empty_trimEnd, blank_trimStart. Qed.

Lemma blank_trim s : blank (JS.trim s) = blank s.
Proof. unfold JS.trim. by rewrite blank_trimEnd, blank_trimStart. Qed.

Lemma is_space_lower c : JS.is_space (JS.lower_char c) = JS.is_space c.
Proof. by destruct c as [[] [] [] [] [] [] [] []]. Qed.

Lemma blank_lower s : blank (JS.toLowerCase s) = blank s.
Proof.
  induction s as [|c r IH]; [done|]. simpl. by rewrite is_space_lower, IH.
Qed.

Lemma same_name_blank n c : same_name n c -> blank n = blank (name c).
Proof.
  unfold same_name. intros H.
  by rewrite <- (blank_lower n), <- H, blank_lower.
Qed.

(** *** Searching the collection *)

Lemma find_None (P : category -> Prop) `{∀ c, Decision (P c)} l :
  (∀ c, c ∈ l -> ¬ P c) -> find P l = None.
Proof.
  intros Hn. unfold find.
  destruct (list_find P l) as [[i c]|] eqn:Hf; [|done].
  apply list_find_Some in Hf as (Hl&HP&_).
  destruct (Hn c); [by eapply list_elem_of_lookup_2|done].
Qed.

Lemma find_Some (P : category -> Prop) `{∀ c, Decision (P c)} l c :
  c ∈ l -> P c -> is_Some (find P l).
Proof.
  intros Hc HP. unfold find.
  destruct (list_find P l) as [[i c']|] eqn:Hf; [by eexists|].
  apply list_find_None in Hf.
  by destruct (proj1 (Forall_forall _ _) Hf c Hc).
Qed.

Lemma list_find_absent id l :
  (∀ c, c ∈ l -> ¬ has_id id c) -> list_find (has_id id) l = None.
Proof. intros Hn. by apply list_find_None, Forall_forall. Qed.

(** *** Stored names are never blank *)

Lemma serve_stored_ok r s : stored_ok s -> stored_ok (serve r s).1.
Proof.
  unfold stored_ok. intros Hs. destruct r as [|id|t1 t2 b|t id b|id]; simpl.
  - done.
  - unfold get_one. by destruct (find _ _).
  - unfold post. destruct (b_name b) as [|n|]; [done| |done].
    destruct (JS.is_empty n || JS.is_empty (JS.trim n)) eqn:He; [done|].
    destruct (find _ _); [done|]. simpl.
    apply Forall_app; split; [done|]. constructor; [|constructor]. simpl.
    apply orb_false_elim in He as [_ He].
    by rewrite blank_trim, <- is_empty_trim.
  - unfold put. destruct (list_find _ _) as [[i c]|] eqn:Hf; [|done].
    destruct (put_validation id b s) as [msg|] eqn:Hv; [done|]. simpl.
    apply Forall_insert; [done|]. simpl.
    apply list_find_Some in Hf as (Hl&_&_).
    pose proof (proj1 (Forall_forall _ _) Hs c
                  (list_elem_of_lookup_2 _ _ _ Hl)) as Hc.
    unfold put_validation in Hv.
    destruct (b_name b) as [|n|]; [done| |done].
    destruct (JS.is_empty (JS.trim n)) eqn:He; [done|].
    by rewrite blank_trim, <- is_empty_trim.
  - unfold delete_one. destruct (list_find _ _) as [[i c]|]; [|done].
    simpl. by apply Forall_delete.
Qed.

Lemma served_stored_ok s : served s -> stored_ok s.
Proof.
  induction 1 as [|s r _ IH]; [constructor|]. by apply serve_stored_ok.
Qed.

(** A POST whose name matches a stored one without regard to case is
    refused and changes nothing. *)
Lemma post_same_name_refused t1 t2 b n c s :
  b_name b = Str n -> c ∈ categories s -> same_name n c ->
  ∃ msg, post t1 t2 b s = bad_request s msg.
Proof.
  intros Hb Hc Hn. unfold post. rewrite Hb.
  destruct (_ || _); [by eexists|].
  destruct (find_Some (same_name n) _ c Hc Hn) as [c' ->]. by eexists.
Qed.

(** C6, at a name that differs from a stored one by a trailing space.
    POST compares the name as sent but stores it trimmed: both requests
    are answered 201 and the collection, reached by two POSTs from the
    empty server, holds the name "Ops" twice. *)
Theorem trimmed_name_stored_twice :
  served after_two_posts ∧
  status (serve (Post sample_time sample_time (named "Ops")) empty_server).2
    = 201 ∧
  status (serve (Post sample_time sample_time (named "Ops ")) after_one_post).2
    = 201 ∧
  name <$> categories after_two_posts = ["Ops"; "Ops"] ∧
  ¬ names_distinct (categories after_two_posts).
Proof.
  split; [do 2 apply served_request; apply served_none|].
  repeat split; try (vm_compute; reflexivity).
  unfold names_distinct. vm_compute.
  intros H. apply NoDup_cons in H as [H _]. apply H. by left.
Qed.

(** C7. For an id that no stored category has, GET, PUT and DELETE on
    that id answer 404 with "Category not found" and hand back the
    server state they were given, with no save. *)
Theorem unknown_id_not_found s id :
  (∀ c, c ∈ categories s -> ¬ has_id id c) ->
  let nf := (s, {| status := 404;
                   payload_of := Failure "Category not found" |}) in
  get_one id s = nf ∧
  (∀ t b, put t id b s = nf) ∧
  delete_one id s = nf.
Proof.
  intros Hn. simpl. repeat split.
  - unfold get_one. by rewrite (find_None _ _ Hn).
  - intros t b. unfold put. by rewrite (list_find_absent _ _ Hn).
  - unfold delete_one. by rewrite (list_find_absent _ _ Hn).
Qed.

(** C10, as the code has it.  In a collection the service can reach, a PUT on a
    stored category whose body name equals that category's name without
    regard to case is answered 200, provided no other stored category
    bears that name. *)
Theorem self_rename_accepted s c t b n :
  served s ->
  c ∈ categories s ->
  b_name b = Str n ->
  same_name n c ->
  (∀ c', c' ∈ categories s -> c_id c' ≠ c_id c -> ¬ same_name n c') ->
  status (put t (Some (c_id c)) b s).2 = 200.
Proof.
  intros Hr Hc Hb Hn Hothers. unfold put.
  destruct (list_find _ _) as [[i c0]|] eqn:Hf.
  2:{ apply list_find_None in Hf.
      by destruct (proj1 (Forall_forall _ _) Hf c Hc). }
  assert (Hv : put_validation (Some (c_id c)) b s = None).
  { unfold put_validation. rewrite Hb.
    pose proof (proj1 (Forall_forall _ _) (served_stored_ok s Hr) c Hc)
      as Hblank. simpl in Hblank.
    rewrite is_empty_trim, (same_name_blank n c Hn), Hblank.
    rewrite find_None; [done|].
    intros c' Hc' [Hid Hsame]. apply (Hothers c' Hc'); [|done].
    intros Heq. apply Hid. unfold has_id. by rewrite Heq. }
  by rewrite Hv.
Qed.

(** *** The theorems at sample collections *)

Lemma unknown_id_not_found_witness :
  let nf := (after_one_post,
             {| status := 404;
                payload_of := Failure "Category not found" |}) in
  get_one (Some 7) after_one_post = nf ∧
  (∀ t b, put t (Some 7) b after_one_post = nf) ∧
  delete_one (Some 7) after_one_post = nf.
Proof.
  apply (unknown_id_not_found after_one_post (Some 7)).
  apply Forall_forall. repeat constructor. discriminate.
Defined.

(** C10 as stated fails in the collection that holds "Ops" twice: the
    PUT of the first category with its own name finds the second one
    and answers 400. *)
Lemma self_rename_refused_among_duplicates :
  ¬ (∀ s c t b n,
       served s -> c ∈ categories s -> b_name b = Str n ->
       same_name n c ->
       status (put t (Some (c_id c)) b s).2 = 200).
Proof.
  intros H.
  specialize (H after_two_posts ops sample_time (named "Ops") "Ops").
  assert (Hr : served after_two_posts)
    by (do 2 apply served_request; apply served_none).
  assert (Hin : ops ∈ categories after_two_posts)
    by (apply list_elem_of_lookup_2 with 0%nat; reflexivity).
  specialize (H Hr Hin eq_refl eq_refl).
  vm_compute in H. discriminate H.
Qed.

Lemma self_rename_accepted_witness :
  status (put sample_time (Some 1) (named ete_lower) after_ete_dev).2 = 200.
Proof.
  apply (self_rename_accepted after_ete_dev ete sample_time
           (named ete_lower) ete_lower).
  - do 2 apply served_request. apply served_none.
  - apply list_elem_of_lookup_2 with 0%nat. reflexivity.
  - reflexivity.
  - reflexivity.
  - intros c' [j Hj]%list_elem_of_lookup_1 Hne.
    destruct j as [|[|j]]; simpl in Hj.
    + injection Hj as <-. by destruct Hne.
    + injection Hj as <-. intros Hsame. vm_compute in Hsame.
      discriminate Hsame.
    + discriminate Hj.
Defined.

(** *** Ids *)

Lemma serve_counter r s : nextCategoryId s ≤ nextCategoryId (serve r s).1.
Proof.
  destruct r as [|id|t1 t2 b|t id b|id]; simpl.
  - done.
  - unfold get_one. by destruct (find _ _).
  - unfold post. destruct (b_name b) as [|n|]; [done| |done].
    destruct (_ || _); [done|]. destruct (find _ _); [done|]. simpl. lia.
  - unfold put. destruct (list_find _ _) as [[i c]|]; [|done].
    by destruct (put_validation id b s).
  - unfold delete_one. by destruct (list_find _ _) as [[i c]|].
Qed.

Lemma serve_ids_ok r s : ids_ok s -> ids_ok (serve r s).1.
Proof.
  intros (Hnd&Hlt&Hone). destruct r as [|id|t1 t2 b|t id b|id]; simpl.
  - done.
  - unfold get_one. by destruct (find _ _).
  - unfold post. destruct (b_name b) as [|n|]; [done| |done].
    destruct (_ || _); [done|]. destruct (find _ _); [done|].
    unfold ids_ok. simpl. split_and!; [| |lia].
    + rewrite fmap_app. simpl. apply NoDup_app. split_and!; [done| |].
      * intros x (c&->&Hc)%list_elem_of_fmap_1 Hx%list_elem_of_singleton.
        pose proof (proj1 (Forall_forall _ _) Hlt c Hc). simpl in *. lia.
      * apply NoDup_singleton.
    + apply Forall_app. split.
      * eapply Forall_impl; [done|]. simpl. intros c ?. lia.
      * repeat constructor; simpl; lia.
  - unfold put. destruct (list_find _ _) as [[i c]|] eqn:Hf; [|done].
    destruct (put_validation id b s); [done|].
    apply list_find_Some in Hf as (Hl&_&_).
    unfold ids_ok. simpl. split_and!; [| |done].
    + rewrite list_fmap_insert. simpl.
      rewrite list_insert_id; [done|]. by rewrite list_lookup_fmap, Hl.
    + apply Forall_insert; [done|]. simpl.
      exact (proj1 (Forall_forall _ _) Hlt c (list_elem_of_lookup_2 _ _ _ Hl)).
  - unfold delete_one. destruct (list_find _ _) as [[i c]|]; [|done].
    unfold ids_ok. simpl. split_and!; [| |done].
    + rewrite list_fmap_delete. eapply sublist_NoDup; [done|].
      apply sublist_delete.
    + by apply Forall_delete.
Qed.

Lemma served_ids_ok s : served s -> ids_ok s.
Proof.
  induction 1 as [|s r _ IH].
  - unfold ids_ok. simpl. split_and!; [constructor|constructor|lia].
  - by apply serve_ids_ok.
Qed.

(** X11. Ids are never shared and never reused: in every state of the
    server the stored ids are pairwise distinct, at least 1 and below
    [nextCategoryId], and no request ever lowers that counter, so the id
    of a deleted category is not handed out again. *)
Theorem ids_unique_and_fresh s :
  served s ->
  NoDup (c_id <$> categories s) ∧
  (∀ c, c ∈ categories s -> 1 ≤ c_id c < nextCategoryId s) ∧
  (∀ r, nextCategoryId s ≤ nextCategoryId (serve r s).1).
Proof.
  intros (Hnd&Hlt&_)%served_ids_ok. split_and!; [done| |].
  - by apply Forall_forall.
  - intros r. apply serve_counter.
Qed.

Local Ltac settle_response :=
  simpl; split_and!;
  [ lia
  | first [ done | intros [?|?]; lia ]
  | first [ done | intros ?; done ]
  | first [ done
          | intros Hw Hc; first [ discriminate Hw | destruct Hc; lia ] ] ].

(** X12. Every response carries one of the statuses 200, 201, 400 and
    404; a request answered 400 or 404, and every GET, returns the very
    server state it was given; a POST, PUT or DELETE answered 200 or 201
    calls [saveCategories] exactly once. *)
Theorem failures_change_nothing r s :
  let s' := (serve r s).1 in
  let code := status (serve r s).2 in
  (code = 200 ∨ code = 201 ∨ code = 400 ∨ code = 404) ∧
  (code = 400 ∨ code = 404 -> s' = s) ∧
  (writes r = false -> s' = s) ∧
  (writes r = true -> code = 200 ∨ code = 201 -> saves s' = S (saves s)).
Proof.
  destruct r as [|id|t1 t2 b|t id b|id]; simpl.
  - settle_response.
  - unfold get_one. destruct (find _ _); settle_response.
  - unfold post. destruct (b_name b) as [|n|]; [settle_response| |settle_response].
    destruct (_ || _); [settle_response|].
    destruct (find _ _); settle_response.
  - unfold put. destruct (list_find _ _) as [[i c]|]; [|settle_response].
    destruct (put_validation id b s); settle_response.
  - unfold delete_one. destruct (list_find _ _) as [[i c]|]; settle_response.
Qed.

(** *** Stored names *)

Lemma trimStart_clean s :
  match JS.trimStart s with
  | EmptyString => True
  | String c _ => JS.is_space c = false
  end.
Proof.
  induction s as [|c r IH]; [done|]. simpl.
  by destruct (JS.is_space c) eqn:Hc.
Qed.

Lemma trimEnd_idem t : JS.trimEnd (JS.trimEnd t) = JS.trimEnd t.
Proof.
  induction t as [|c r IH]; [done|]. simpl.
  destruct (JS.is_space c && JS.is_empty (JS.trimEnd r)) eqn:Hc; [done|].
  simpl. by rewrite IH, Hc.
Qed.

Lemma trim_idem s : JS.trim (JS.trim s) = JS.trim s.
Proof.
  unfold JS.trim. pose proof (trimStart_clean s) as Hc.
  destruct (JS.trimStart s) as [|c r]; [done|].
  simpl. rewrite Hc. simpl. rewrite Hc. simpl.
  by rewrite trimEnd_idem, Hc.
Qed.

Lemma serve_names_trimmed r s :
  Forall (λ c, JS.trim (name c) = name c) (categories s) ->
  Forall (λ c, JS.trim (name c) = name c) (categories (serve r s).1).
Proof.
  intros Hs. destruct r as [|id|t1 t2 b|t id b|id]; simpl.
  - done.
  - unfold get_one. by destruct (find _ _).
  - unfold post. destruct (b_name b) as [|n|]; [done| |done].
    destruct (_ || _); [done|]. destruct (find _ _); [done|]. simpl.
    apply Forall_app; split; [done|]. repeat constructor. simpl.
    apply trim_idem.
  - unfold put. destruct (list_find _ _) as [[i c]|] eqn:Hf; [|done].
    destruct (put_validation id b s); [done|]. simpl.
    apply Forall_insert; [done|]. simpl.
    apply list_find_Some in Hf as (Hl&_&_).
    destruct (b_name b); [|apply trim_idem|];
      exact (proj1 (Forall_forall _ _) Hs c (list_elem_of_lookup_2 _ _ _ Hl)).
  - unfold delete_one. destruct (list_find _ _) as [[i c]|]; [|done].
    simpl. by apply Forall_delete.
Qed.

Lemma served_names_trimmed s :
  served s -> Forall (λ c, JS.trim (name c) = name c) (categories s).
Proof.
  induction 1 as [|s r _ IH]; [constructor|]. by apply serve_names_trimmed.
Qed.

(** X13. Whatever names the requests carried, every stored name is
    trimmed and not empty: it has no white space at either end and at
    least one character. *)
Theorem stored_names_are_trimmed s c :
  served s ->
  c ∈ categories s ->
  JS.trim (name c) = name c ∧ name c ≠ EmptyString.
Proof.
  intros Hs Hc. split.
  - exact (proj1 (Forall_forall _ _) (served_names_trimmed s Hs) c Hc).
  - pose proof (proj1 (Forall_forall _ _) (served_stored_ok s Hs) c Hc) as Hb.
    simpl in Hb. intros Hn. by rewrite Hn in Hb.
Qed.

(** *** The data file *)

(** X14. What [saveCategories] writes is what [loadCategories] reads
    back: after any sequence of requests, a restart from the file just
    written finds the same categories and the same [nextCategoryId].
    A missing or unreadable file, and a file without [categories] and
    [nextId], start the server empty with the counter at 1. *)
Theorem load_after_save s :
  served s ->
  categories (loadCategories (file_written s)) = categories s ∧
  nextCategoryId (loadCategories (file_written s)) = nextCategoryId s ∧
  loadCategories NoFile = empty_server ∧
  loadCategories Unreadable = empty_server ∧
  loadCategories (Parsed None None) = empty_server.
Proof.
  intros (_&_&Hone)%served_ids_ok. simpl. split_and!; try done.
  destruct (Z.eqb_spec (nextCategoryId s) 0); [lia|done].
Qed.

(** *** What a later GET sees *)

Lemma same_id_same_index (l : list category) i j c c' :
  NoDup (c_id <$> l) ->
  l !! i = Some c -> l !! j = Some c' -> c_id c = c_id c' -> i = j.
Proof.
  intros Hnd Hi Hj Hid.
  apply (proj1 (NoDup_alt _) Hnd i j (c_id c));
    rewrite list_lookup_fmap; [by rewrite Hi | by rewrite Hj, Hid].
Qed.

(** X15. A created category can be fetched: when POST answers 201 in a
    state of the server, the new category is appended after the stored
    ones with the old value of [nextCategoryId] as its id, and GET on
    that id in the new state answers 200 with that very category. *)
Theorem post_then_get s t1 t2 b :
  served s ->
  status (post t1 t2 b s).2 = 201 ->
  let s' := (post t1 t2 b s).1 in
  ∃ c, payload_of (post t1 t2 b s).2
         = Changed c "Category created successfully" ∧
       c_id c = nextCategoryId s ∧
       categories s' = categories s ++ [c] ∧
       get_one (Some (c_id c)) s'
         = (s', {| status := 200; payload_of := One c |}).
Proof.
  intros (_&Hlt&_)%served_ids_ok. unfold post.
  destruct (b_name b) as [|n|]; [done| |done].
  destruct (_ || _); [done|]. destruct (find _ _); [done|]. simpl.
  intros _. eexists. split_and!; [done..|].
  unfold get_one, find. simpl.
  rewrite list_find_app_r.
  - simpl. rewrite decide_True by done. done.
  - apply list_find_None. eapply Forall_impl; [done|]. simpl.
    intros c Hc [= Hid]. lia.
Qed.

Lemma filter_other_ids (l : list category) i c :
  NoDup (c_id <$> l) -> l !! i = Some c ->
  filter (λ c', c_id c' ≠ c_id c) l = delete i l.
Proof.
  revert i. induction l as [|x l IH]; intros i; [done|].
  rewrite fmap_cons, NoDup_cons. intros [Hx Hnd] Hi.
  destruct i as [|i]; simpl in Hi.
  - injection Hi as ->. rewrite filter_cons_False by (intros H; by apply H).
    simpl. clear IH. induction l as [|y l IH]; [done|].
    rewrite fmap_cons, not_elem_of_cons in Hx. destruct Hx as [Hy Hx].
    rewrite fmap_cons, NoDup_cons in Hnd. destruct Hnd as [_ Hnd].
    rewrite filter_cons_True by done. f_equal. by apply IH.
  - rewrite filter_cons_True.
    + simpl. f_equal. by apply IH.
    + intros Heq. apply Hx. rewrite Heq.
      apply list_elem_of_fmap_2. by eapply list_elem_of_lookup_2.
Qed.

(** X16. A deleted category is gone and only that one: when DELETE
    answers 200 in a state of the server, the categories left are the
    stored ones with another id, in their order, and GET on the deleted
    id then answers 404. *)
Theorem delete_then_get s id :
  served s ->
  status (delete_one (Some id) s).2 = 200 ->
  let s' := (delete_one (Some id) s).1 in
  categories s' = filter (λ c, c_id c ≠ id) (categories s) ∧
  length (categories s') = pred (length (categories s)) ∧
  get_one (Some id) s' = not_found s'.
Proof.
  intros (Hnd&_&_)%served_ids_ok. unfold delete_one.
  destruct (list_find _ _) as [[i c]|] eqn:Hf; [|done]. simpl. intros _.
  apply list_find_Some in Hf as (Hl&[= ->]&_).
  assert (Hd : delete i (categories s)
               = filter (λ c', c_id c' ≠ c_id c) (categories s))
    by (symmetry; by apply filter_other_ids).
  split_and!; [done| |].
  - rewrite length_delete; [lia|by eexists].
  - unfold get_one. simpl. rewrite find_None; [done|].
    rewrite Hd. intros c' [Hne _]%list_elem_of_filter [= Heq]. by apply Hne.
Qed.

(** X17. An update can be fetched and disturbs nothing else: when PUT
    answers 200, GET on the same id in the new state answers 200 with
    the category of the response; that category keeps its id and
    creation time, takes the clock reading as update time, keeps every
    field the body leaves out, and the number of categories and
    [nextCategoryId] are unchanged. *)
Theorem put_then_get s t id b :
  status (put t id b s).2 = 200 ->
  let s' := (put t id b s).1 in
  ∃ old new,
    old ∈ categories s ∧
    payload_of (put t id b s).2 = Changed new "Category updated successfully" ∧
    get_one id s' = (s', {| status := 200; payload_of := One new |}) ∧
    c_id new = c_id old ∧ createdAt new = createdAt old ∧
    updatedAt new = t ∧
    (b_name b = Absent -> name new = name old) ∧
    (b_description b = None -> description new = description old) ∧
    (b_color b = None -> color new = color old) ∧
    length (categories s') = length (categories s) ∧
    nextCategoryId s' = nextCategoryId s.
Proof.
  unfold put.
  destruct (list_find _ _) as [[i c]|] eqn:Hf; [|done].
  destruct (put_validation id b s); [done|]. simpl. intros _.
  apply list_find_Some in Hf as (Hl&Hid&Hleast).
  exists c, (update t b c). split_and!; try done.
  - by eapply list_elem_of_lookup_2.
  - unfold get_one, find. simpl.
    assert (Hf' : list_find (has_id id)
                    (<[i:=update t b c]> (categories s))
                  = Some (i, update t b c)).
    { apply list_find_Some. split_and!.
      - apply list_lookup_insert_eq. by eapply lookup_lt_Some.
      - done.
      - intros j y Hj Hlt. rewrite list_lookup_insert_ne in Hj by lia.
        by eapply Hleast. }
    by rewrite Hf'.
  - unfold update. simpl. by intros ->.
  - unfold update. simpl. by intros ->.
  - unfold update. simpl. by intros ->.
  - by rewrite length_insert.
Qed.

(** *** Names that arrive trimmed *)

Lemma serve_names_distinct r s :
  ids_ok s -> names_distinct (categories s) -> trimmed r ->
  names_distinct (categories (serve r s).1).
Proof.
  unfold names_distinct. intros (Hids&_&_) Hnd Htr.
  destruct r as [|id|t1 t2 b|t id b|id]; simpl.
  - done.
  - unfold get_one. by destruct (find _ _).
  - unfold post. simpl in Htr.
    destruct (b_name b) as [|n|]; [done| |done].
    destruct (_ || _); [done|].
    destruct (find _ _) as [c0|] eqn:Hf; [done|]. simpl.
    unfold find in Hf. destruct (list_find _ _) eqn:Hf'; [done|].
    apply list_find_None in Hf'.
    rewrite fmap_app. simpl. apply NoDup_app. split_and!; [done| |].
    + intros x (c&->&Hc)%list_elem_of_fmap_1 Hx%list_elem_of_singleton.
      simpl in Hx. rewrite Htr in Hx.
      exact (proj1 (Forall_forall _ _) Hf' c Hc Hx).
    + apply NoDup_singleton.
  - unfold put. simpl in Htr.
    destruct (list_find _ _) as [[i c]|] eqn:Hf; [|done].
    destruct (put_validation id b s) eqn:Hv; [done|]. simpl.
    apply list_find_Some in Hf as (Hl&Hid&_).
    rewrite list_fmap_insert. unfold put_validation in Hv.
    unfold update, compose at 1. simpl.
    destruct (b_name b) as [|n|]; [| |done].
    + simpl. rewrite list_insert_id; [done|].
      by rewrite list_lookup_fmap, Hl.
    + revert Hv. destruct (JS.is_empty (JS.trim n)); [done|].
      destruct (find _ _) as [c0|] eqn:Hf; [done|]. intros _.
      unfold find in Hf.
      destruct (list_find (other_same_name id n) _) eqn:Hf'; [done|].
      apply list_find_None in Hf'. rewrite Htr.
      apply NoDup_alt. intros j1 j2 x Hj1 Hj2.
      assert (Hclash : ∀ j, j ≠ i ->
                (JS.toLowerCase ∘ name <$> categories s) !! j
                ≠ Some (JS.toLowerCase n)).
      { intros j Hne Hj. rewrite list_lookup_fmap in Hj.
        destruct (categories s !! j) as [c'|] eqn:Hc'; [|done].
        injection Hj as Hj.
        pose proof (proj1 (Forall_forall _ _) Hf' c'
                      (list_elem_of_lookup_2 _ _ _ Hc')) as Hno.
        destruct (decide (has_id id c')) as [Hid'|Hid'].
        - apply Hne. symmetry. eapply same_id_same_index; try done.
          unfold has_id in *. congruence.
        - apply Hno. by split. }
      destruct (decide (j1 = i)) as [->|H1], (decide (j2 = i)) as [->|H2];
        [done| | |].
      * rewrite list_lookup_insert_eq in Hj1
          by (rewrite length_fmap; by eapply lookup_lt_Some).
        rewrite list_lookup_insert_ne in Hj2 by done.
        injection Hj1 as <-. by destruct (Hclash j2 H2).
      * rewrite list_lookup_insert_eq in Hj2
          by (rewrite length_fmap; by eapply lookup_lt_Some).
        rewrite list_lookup_insert_ne in Hj1 by done.
        injection Hj2 as <-. by destruct (Hclash j1 H1).
      * rewrite list_lookup_insert_ne in Hj1, Hj2 by done.
        by eapply (proj1 (NoDup_alt _) Hnd).
  - unfold delete_one. destruct (list_find _ _) as [[i c]|]; [|done].
    simpl. rewrite list_fmap_delete. eapply sublist_NoDup; [done|].
    apply sublist_delete.
Qed.

Lemma served_trimmed_served s : served_trimmed s -> served s.
Proof. induction 1; by constructor. Qed.

(** X18. Names that arrive trimmed stay unique: after any sequence of
    requests whose names have no white space at either end, the stored
    names are pairwise distinct when compared without case. *)
Theorem trimmed_names_stay_distinct s :
  served_trimmed s -> names_distinct (categories s).
Proof.
  induction 1 as [|s r Hs IH Htr]; [constructor|].
  apply serve_names_distinct; [|done..].
  by apply served_ids_ok, served_trimmed_served.
Qed.

(** *** White space and letters outside ASCII *)

(** A name made of one no-break space is refused as empty. *)
Example nbsp_name_refused :
  post sample_time sample_time (named (String JS.nbsp EmptyString))
    empty_server
  = bad_request empty_server "Category name is required".
Proof. vm_compute. reflexivity. Qed.

(** After "Été", a POST with "été" is refused as a duplicate. *)
Example accented_duplicate_refused :
  post sample_time sample_time (named ete_lower) after_ete_dev
  = bad_request after_ete_dev "Category with this name already exists".
Proof. vm_compute. reflexivity. Qed.

(** "Ops" followed by a no-break space is trimmed to "Ops" and, like the
    name followed by a space, is stored beside the first "Ops". *)
Example nbsp_padded_name_stored_twice :
  name <$> categories
    (post sample_time sample_time
       (named ("Ops" +:+ String JS.nbsp EmptyString)) after_one_post).1
  = ["Ops"; "Ops"].
Proof. vm_compute. reflexivity. Qed.

(** *** The further theorems at sample collections *)

Lemma after_one_post_served : served after_one_post.
Proof. apply served_request, served_none. Qed.

Lemma ids_unique_and_fresh_witness :
  NoDup (c_id <$> categories after_two_posts) ∧
  (∀ c, c ∈ categories after_two_posts ->
        1 ≤ c_id c < nextCategoryId after_two_posts) ∧
  (∀ r, nextCategoryId after_two_posts
        ≤ nextCategoryId (serve r after_two_posts).1).
Proof.
  apply (ids_unique_and_fresh after_two_posts).
  do 2 apply served_request. apply served_none.
Defined.

Lemma stored_names_are_trimmed_witness :
  JS.trim (name ops_third) = name ops_third ∧ name ops_third ≠ EmptyString.
Proof.
  apply (stored_names_are_trimmed after_padded_post ops_third).
  - do 3 apply served_request. apply served_none.
  - apply list_elem_of_lookup_2 with 2%nat. reflexivity.
Defined.

Lemma load_after_save_witness :
  categories (loadCategories (file_written after_one_post))
    = categories after_one_post ∧
  nextCategoryId (loadCategories (file_written after_one_post))
    = nextCategoryId after_one_post ∧
  loadCategories NoFile = empty_server ∧
  loadCategories Unreadable = empty_server ∧
  loadCategories (Parsed None None) = empty_server.
Proof. apply (load_after_save after_one_post), after_one_post_served. Defined.

Lemma post_then_get_witness :
  let s' := (post sample_time sample_time (named "Ops") empty_server).1 in
  ∃ c, payload_of (post sample_time sample_time (named "Ops") empty_server).2
         = Changed c "Category created successfully" ∧
       c_id c = nextCategoryId empty_server ∧
       categories s' = categories empty_server ++ [c] ∧
       get_one (Some (c_id c)) s'
         = (s', {| status := 200; payload_of := One c |}).
Proof.
  apply (post_then_get empty_server sample_time sample_time (named "Ops")).
  - apply served_none.
  - reflexivity.
Defined.

Lemma delete_then_get_witness :
  let s' := (delete_one (Some 1) after_one_post).1 in
  categories s' = filter (λ c, c_id c ≠ 1) (categories after_one_post) ∧
  length (categories s') = pred (length (categories after_one_post)) ∧
  get_one (Some 1) s' = not_found s'.
Proof.
  apply (delete_then_get after_one_post 1).
  - apply after_one_post_served.
  - reflexivity.
Defined.

Lemma put_then_get_witness :
  let s' := (put sample_time (Some 1) (named "Support") after_one_post).1 in
  ∃ old new,
    old ∈ categories after_one_post ∧
    payload_of (put sample_time (Some 1) (named "Support") after_one_post).2
      = Changed new "Category updated successfully" ∧
    get_one (Some 1) s' = (s', {| status := 200; payload_of := One new |}) ∧
    c_id new = c_id old ∧ createdAt new = createdAt old ∧
    updatedAt new = sample_time ∧
    (b_name (named "Support") = Absent -> name new = name old) ∧
    (b_description (named "Support") = None ->
     description new = description old) ∧
    (b_color (named "Support") = None -> color new = color old) ∧
    length (categories s') = length (categories after_one_post) ∧
    nextCategoryId s' = nextCategoryId after_one_post.
Proof.
  apply (put_then_get after_one_post sample_time (Some 1) (named "Support")).
  reflexivity.
Defined.

Lemma trimmed_names_stay_distinct_witness :
  names_distinct (categories after_ete_dev).
Proof.
  apply (trimmed_names_stay_distinct after_ete_dev).
  apply served_trimmed_request; [|reflexivity].
  apply served_trimmed_request; [apply served_trimmed_none | reflexivity].
Defined.

End CategoryLaws.

(** ** Properties of the categories page *)

Module ClientLaws.
Import Categories Client CategoryLaws.

Lemma handleSubmit_name m sub :
  handleSubmit m = Some sub ->
  ∃ n b, b_name b = Str n ∧ JS.trim n = n ∧ JS.is_empty n = false ∧
         (sub = Create b ∨ ∃ id, id ≠ 0 ∧ sub = Update id b).
Proof.
  unfold handleSubmit.
  destruct (JS.is_empty (JS.trim (nameField (fields m)))) eqn:He; [done|].
  intros Hs.
  exists (JS.trim (nameField (fields m))),
    {| b_name := Str (JS.trim (nameField (fields m)));
       b_description := Some (JS.trim (descriptionField (fields m)));
       b_color := Some (colorField (fields m)) |}.
  split_and!; [| apply trim_idem | exact He |].
  - reflexivity.
  - destruct (editingId m) as [id|]; [|injection Hs as <-; by left].
    destruct (Z.eqb_spec id 0); injection Hs as <-; [by left|].
    right. by exists id.
Qed.

Lemma handleSubmit_trimmed m sub t1 t2 :
  handleSubmit m = Some sub -> trimmed (request_of t1 t2 sub).
Proof.
  intros (n&b&Hb&Ht&_&[->|(id&_&->)])%handleSubmit_name;
    simpl; by rewrite Hb.
Qed.

(** X20. The page's own check covers the server's: whatever is typed
    into the form, a submission that [handleSubmit] sends carries a
    trimmed, non-empty name, so the server never answers it with one of
    its two name-validation errors; the only refusals left are the
    duplicate name and, for an update, the unknown id. *)
Theorem form_submission_passes_validation m sub s t1 t2 :
  handleSubmit m = Some sub ->
  let resp := (serve (request_of t1 t2 sub) s).2 in
  trimmed (request_of t1 t2 sub) ∧
  (status resp = 201 ∨ status resp = 200 ∨ status resp = 404 ∨
   payload_of resp = Failure "Category with this name already exists").
Proof.
  intros Hs. split; [by apply (handleSubmit_trimmed m)|].
  apply handleSubmit_name in Hs as (n&b&Hb&Ht&He&[->|(id&_&->)]); simpl.
  - unfold post. rewrite Hb, Ht, He. simpl.
    destruct (find _ _); simpl; tauto.
  - unfold put. destruct (list_find _ _) as [[i c]|]; simpl; [|tauto].
    unfold put_validation. rewrite Hb, Ht, He.
    destruct (find _ _); simpl; tauto.
Qed.

Lemma served_by_page_trimmed s : served_by_page s -> served_trimmed s.
Proof.
  induction 1 as [|s m sub t1 t2 _ IH Hs|s id _ IH].
  - constructor.
  - constructor; [done|]. by apply (handleSubmit_trimmed m).
  - by constructor.
Qed.

Lemma page_names_distinct s : served_by_page s -> names_distinct (categories s).
Proof.
  induction 1 as [|s m sub t1 t2 Hp IH Hs|s id Hp IH].
  - constructor.
  - apply serve_names_distinct; [|done|by apply (handleSubmit_trimmed m)].
    by apply served_ids_ok, served_trimmed_served, served_by_page_trimmed.
  - apply serve_names_distinct; [|done|done].
    by apply served_ids_ok, served_trimmed_served, served_by_page_trimmed.
Qed.

Lemma same_key_same_index (l : list category) i j c c' :
  names_distinct l ->
  l !! i = Some c -> l !! j = Some c' ->
  JS.toLowerCase (name c) = JS.toLowerCase (name c') -> i = j.
Proof.
  intros Hnd Hi Hj Hk.
  apply (proj1 (NoDup_alt _) Hnd i j (JS.toLowerCase (name c)));
    rewrite list_lookup_fmap; [by rewrite Hi | by rewrite Hj; simpl; rewrite Hk].
Qed.

(** X21. Through the page the stored names stay unique and an unchanged
    edit always goes through: in every server state that form
    submissions and deletions can produce, the names are pairwise
    distinct when compared without case, and opening any stored category
    with [editCategory] and submitting the form as filled sends a PUT for
    that id with that name, which the server answers 200. *)
Theorem edit_and_resubmit_accepted s m c t1 t2 :
  served_by_page s ->
  c ∈ categories s ->
  names_distinct (categories s) ∧
  ∃ b, handleSubmit (editCategory (c_id c) (loaded s m))
         = Some (Update (c_id c) b) ∧
       b_name b = Str (name c) ∧
       status (serve (request_of t1 t2 (Update (c_id c) b)) s).2 = 200.
Proof.
  intros Hp Hc.
  pose proof (page_names_distinct s Hp) as Hnd.
  pose proof (served_trimmed_served s (served_by_page_trimmed s Hp)) as Hsv.
  destruct (served_ids_ok s Hsv) as (Hids&Hrange&_).
  pose proof (proj1 (Forall_forall _ _) (served_names_trimmed s Hsv) c Hc)
    as Htrim. simpl in Htrim.
  pose proof (proj1 (Forall_forall _ _) (served_stored_ok s Hsv) c Hc)
    as Hblank. simpl in Hblank.
  pose proof (proj1 (Forall_forall _ _) Hrange c Hc) as Hid. simpl in Hid.
  apply list_elem_of_lookup_1 in Hc as [i Hi].
  assert (Hfind : list_find (has_id (Some (c_id c))) (categories s)
                  = Some (i, c)).
  { apply list_find_Some. split_and!; [done|done|].
    intros j y Hj Hlt [= Heq]. 
    pose proof (same_id_same_index _ _ _ _ _ Hids Hi Hj Heq). lia. }
  assert (Hempty : JS.is_empty (JS.trim (name c)) = false)
    by (by rewrite is_empty_trim).
  split; [done|].
  unfold editCategory, loaded, find. simpl. rewrite Hfind. simpl.
  unfold handleSubmit. simpl. rewrite Hempty.
  destruct (Z.eqb_spec (c_id c) 0); [lia|].
  eexists. split; [reflexivity|]. simpl. split; [by rewrite Htrim|].
  unfold put. rewrite Hfind.
  unfold put_validation. simpl. rewrite trim_idem, Hempty.
  rewrite find_None; [done|].
  intros c' [j Hj]%list_elem_of_lookup_1 [Hnot Hsame].
  apply Hnot. unfold same_name in Hsame. rewrite Htrim in Hsame.
  pose proof (same_key_same_index _ _ _ _ _ Hnd Hj Hi Hsame) as ->.
  rewrite Hi in Hj. injection Hj as <-. done.
Qed.

Lemma occurs_app n a b : occurs n (a +:+ b) = occurs n a || occurs n b.
Proof.
  induction a as [|c r IH]; [done|]. simpl. by rewrite IH, orb_assoc.
Qed.

(** X22. [escapeHtml] never returns an angle bracket, so escaped text
    cannot open or close a tag, and it returns unchanged every text that
    has no ampersand, no-break space or angle bracket. *)
Theorem escapeHtml_no_angle_brackets text :
  occurs 60 (escapeHtml text) = false ∧
  occurs 62 (escapeHtml text) = false ∧
  (occurs 38 text = false -> occurs 160 text = false ->
   occurs 60 text = false -> occurs 62 text = false ->
   escapeHtml text = text).
Proof.
  induction text as [|c r (IH1&IH2&IH3)]; [done|].
  simpl. rewrite !occurs_app, IH1, IH2, !orb_false_r.
  unfold escape_char.
  destruct (JS.code c =? 38)%N eqn:H38; [done|].
  destruct (JS.code c =? 160)%N eqn:H160; [done|].
  destruct (JS.code c =? 60)%N eqn:H60; [done|].
  destruct (JS.code c =? 62)%N eqn:H62; [done|].
  simpl. rewrite H60, H62. split_and!; [done|done|].
  intros ????. by rewrite IH3.
Qed.

(** *** The theorems at a sample form *)

(** A name field holding a lone no-break space sends nothing. *)
Example nbsp_form_not_sent : handleSubmit typed_nbsp = None.
Proof. vm_compute. reflexivity. Qed.

Lemma form_submission_passes_validation_witness :
  let resp := (serve (request_of sample_time sample_time (Create ete_data))
                     page_after_ops).2 in
  trimmed (request_of sample_time sample_time (Create ete_data)) ∧
  (status resp = 201 ∨ status resp = 200 ∨ status resp = 404 ∨
   payload_of resp = Failure "Category with this name already exists").
Proof.
  apply (form_submission_passes_validation typed_ete _ page_after_ops
           sample_time sample_time).
  reflexivity.
Defined.

Lemma edit_and_resubmit_accepted_witness :
  names_distinct (categories page_after_two) ∧
  ∃ b, handleSubmit (editCategory (c_id page_ete) (loaded page_after_two fresh))
         = Some (Update (c_id page_ete) b) ∧
       b_name b = Str (name page_ete) ∧
       status (serve (request_of sample_time sample_time
                        (Update (c_id page_ete) b)) page_after_two).2 = 200.
Proof.
  apply (edit_and_resubmit_accepted page_after_two fresh page_ete
           sample_time sample_time).
  - apply (page_submit page_after_ops typed_ete _ sample_time sample_time);
      [|reflexivity].
    apply (page_submit empty_server typed_ops _ sample_time sample_time);
      [apply page_none | reflexivity].
  - apply list_elem_of_lookup_2 with 1%nat. reflexivity.
Defined.

End ClientLaws.
